(** * ApiHitos: the milestone tracker's HTTP-to-SQL layer (server.js)

    A shallow embedding of [server.js]: the JSON values of a request body,
    the parameter formatting of [pool.query], the two tables declared by
    [initDB] with their column constraints, the route handlers as programs
    in a small state-and-exception monad, and the upload filter.

    The relational store and the multipart middleware are collaborators of
    the program.  What the source fixes about them (the [CREATE TABLE]
    texts, the statements and their parameters, the filter, the limits) is
    modelled as written; the store's conversion of a literal to a column
    type is an interface ([engine]) over which the development is
    generic.

    Three conventions hold throughout.  A path parameter [:id] is the
    integer that its text denotes.  A request body is an object of JSON
    scalars.  An upload request is what the client sends under the
    multipart field [imagen], the one field that [upload.single] reads. *)

From Stdlib Require Import ZArith List String Ascii Bool Lia DecimalString.
From Stdlib Require Import Sorted Permutation.
Import ListNotations.

Local Open Scope string_scope.
Local Open Scope list_scope.
Local Open Scope Z_scope.

(** ** JavaScript values of a parsed JSON body

    [express.json()] yields objects whose fields are JSON scalars; a field
    that the body omits reads as [undefined] when destructured.  Numbers
    are the integral ones. *)
Module Js.

Inductive value : Type :=
| Undefined
| Null
| Bool (b : bool)
| Num (n : Z)
| Str (s : string).

(** ToBoolean: [undefined], [null], [false], [0] and [''] are falsy. *)
Definition truthy (v : value) : bool :=
  match v with
  | Undefined | Null => false
  | Bool b => b
  | Num n => negb (Z.eqb n 0)
  | Str s => negb (String.eqb s "")
  end.

(** [a || b]. *)
Definition or (a b : value) : value := if truthy a then a else b.

End Js.

(** ** Parameter formatting of [pool.query]

    Every statement of [server.js] goes through [query], the call of the
    driver that formats the text on the client: each [?] is replaced by
    the escaped value before the text is sent.  [undefined] and [null]
    are both written [NULL], booleans [true]/[false] (the store's names
    for 1 and 0), numbers as numerals, strings as quoted text.  (The
    driver's other call, [execute], prepares the statement and refuses an
    [undefined] parameter; the source does not use it.) *)
Module Sql.

Inductive literal : Type :=
| NULL
| Int (n : Z)
| Text (s : string).

Definition escape (v : Js.value) : literal :=
  match v with
  | Js.Undefined | Js.Null => NULL
  | Js.Bool b => Int (if b then 1 else 0)
  | Js.Num n => Int n
  | Js.Str s => Text s
  end.

Inductive error : Type :=
| ECONNREFUSED
| ER_NO_SUCH_TABLE (table : string)
| ER_BAD_NULL_ERROR (column : string)
| ER_TRUNCATED_WRONG_VALUE (column : string)
| ER_NO_REFERENCED_ROW
| ER_ROW_IS_REFERENCED
| ER_FK_CANNOT_OPEN_PARENT (table : string).

Definition result (A : Type) : Type := (error + A)%type.

Definition bind {A B} (r : result A) (k : A -> result B) : result B :=
  match r with
  | inl e => inl e
  | inr a => k a
  end.

End Sql.

Notation "x <-? r ;; k" := (Sql.bind r (fun x => k))
  (at level 61, r at next level, right associativity).

(** ** The store's column conversions

    How the store turns a non-[NULL] literal into a value of a column's
    type ([None]: the literal is refused).  Dates are kept in the store's
    own text form. *)
Class engine : Type := {
  as_int : Sql.literal -> option Z;
  as_date : Sql.literal -> option string;
  as_varchar : nat -> Sql.literal -> option string;
  as_text : Sql.literal -> option string
}.

(** ** Rows of the two tables, columns as in the [CREATE TABLE] texts *)
Module Etapas.
Record row : Type := {
  id : Z;
  nombre : string;
  color : string
}.
End Etapas.

Module Hitos.
Record row : Type := {
  id : Z;
  item : Z;
  etapa_id : Z;
  fecha_inicio : string;
  ubicacion : string;
  fecha_finalizacion : option string;
  comentarios : option string;
  ilustracion : option string
}.

(** A row of the listing: [h.*] with [e.nombre as etapa] and
    [e.color as etapa_color]. *)
Record joined : Type := {
  h : row;
  etapa : string;
  etapa_color : string
}.
End Hitos.

Record table (R : Type) : Type := {
  rows : list R;
  auto_increment : Z
}.
Arguments rows {R} _.
Arguments auto_increment {R} _.

(** [None]: the table has not been created. *)
Record database : Type := {
  etapas : option (table Etapas.row);
  hitos : option (table Hitos.row)
}.

Definition etapas_rows (d : database) : list Etapas.row :=
  match etapas d with Some t => rows t | None => [] end.

Definition hitos_rows (d : database) : list Hitos.row :=
  match hitos d with Some t => rows t | None => [] end.

(** ** Statements

    One constructor per SQL text of [server.js]; the arguments are the
    values bound to its [?] placeholders, in order. *)
Inductive stmt : Type :=
| CREATE_TABLE_etapas
| CREATE_TABLE_hitos
| SELECT_etapas
| INSERT_default_etapas
| SELECT_etapas_ORDER_BY_id
| INSERT_etapas (nombre color : Js.value)
| SELECT_COUNT_hitos (etapa_id : Z)
| DELETE_etapas (id : Z)
| SELECT_hitos_JOIN_etapas
| INSERT_hitos (item etapa_id fecha_inicio ubicacion fecha_finalizacion
                comentarios ilustracion : Js.value)
| UPDATE_hitos (etapa_id fecha_inicio ubicacion fecha_finalizacion
                comentarios ilustracion : Js.value) (id : Z)
| DELETE_hitos (id : Z).

(** What the driver resolves a statement to: the rows of a [SELECT], or
    the header of a write with its [insertId]. *)
Inductive rowset : Type :=
| Rows_etapas (l : list Etapas.row)
| Rows_count (count : Z)
| Rows_hitos (l : list Hitos.joined)
| ResultSetHeader (insertId : Z).

(** [ORDER BY key] on an integer column, as an insertion sort.  SQL
    leaves the order of rows with equal keys to the store; the sort
    keeps them in the order of its input (a row goes before the rows
    with an equal key that come after it), and the properties below are
    stated so that they hold for any order of such rows. *)
Fixpoint insert_by {R} (key : R -> Z) (x : R) (l : list R) : list R :=
  match l with
  | [] => [x]
  | y :: l' => if key x <=? key y then x :: l else y :: insert_by key x l'
  end.

Fixpoint order_by {R} (key : R -> Z) (l : list R) : list R :=
  match l with
  | [] => []
  | x :: l' => insert_by key x (order_by key l')
  end.

(** [FROM hitos h JOIN etapas e ON h.etapa_id = e.id]. *)
Definition join (hs : list Hitos.row) (es : list Etapas.row)
  : list Hitos.joined :=
  flat_map
    (fun h =>
       map (fun e => {| Hitos.h := h;
                        Hitos.etapa := Etapas.nombre e;
                        Hitos.etapa_color := Etapas.color e |})
           (filter (fun e => Hitos.etapa_id h =? Etapas.id e) es))
    hs.

(** [COUNT( * ) ... WHERE etapa_id = ?]. *)
Definition count_hitos (id : Z) (hs : list Hitos.row) : Z :=
  Z.of_nat (List.length (filter (fun h => Hitos.etapa_id h =? id) hs)).

(** The four rows of the seed [INSERT], numbered from the counter. *)
Definition default_etapas (n : Z) : list Etapas.row :=
  [ {| Etapas.id := n;     Etapas.nombre := "Planificación"; Etapas.color := "#4f46e5" |};
    {| Etapas.id := n + 1; Etapas.nombre := "Ejecución";     Etapas.color := "#059669" |};
    {| Etapas.id := n + 2; Etapas.nombre := "Finalizado";    Etapas.color := "#b91c1c" |};
    {| Etapas.id := n + 3; Etapas.nombre := "En espera";     Etapas.color := "#d97706" |} ].

Section Store.
Context {E : engine}.

(** A column declared [NOT NULL]: [NULL] is refused, also where the
    column has a [DEFAULT] (the default is for a column left out of the
    [INSERT], not for an explicit [NULL]). *)
Definition not_null {A} (column : string) (conv : Sql.literal -> option A)
  (v : Sql.literal) : Sql.result A :=
  match v with
  | Sql.NULL => inl (Sql.ER_BAD_NULL_ERROR column)
  | _ => match conv v with
         | Some a => inr a
         | None => inl (Sql.ER_TRUNCATED_WRONG_VALUE column)
         end
  end.

(** A column that may hold [NULL]. *)
Definition nullable {A} (column : string) (conv : Sql.literal -> option A)
  (v : Sql.literal) : Sql.result (option A) :=
  match v with
  | Sql.NULL => inr None
  | _ => match conv v with
         | Some a => inr (Some a)
         | None => inl (Sql.ER_TRUNCATED_WRONG_VALUE column)
         end
  end.

(** [FOREIGN KEY (etapa_id) REFERENCES etapas(id)], checked on write. *)
Definition references (es : list Etapas.row) (etapa_id : Z)
  : Sql.result unit :=
  if existsb (fun e => Etapas.id e =? etapa_id) es
  then inr tt else inl Sql.ER_NO_REFERENCED_ROW.

Definition the_etapas (d : database) : Sql.result (table Etapas.row) :=
  match etapas d with
  | Some t => inr t
  | None => inl (Sql.ER_NO_SUCH_TABLE "etapas")
  end.

Definition the_hitos (d : database) : Sql.result (table Hitos.row) :=
  match hitos d with
  | Some t => inr t
  | None => inl (Sql.ER_NO_SUCH_TABLE "hitos")
  end.

(** A row of [hitos] with the given [id] and [item] and the other six
    columns converted from the bound values to their column types. *)
Definition hito_row (es : list Etapas.row) (id item : Z)
  (etapa_id fecha_inicio ubicacion fecha_finalizacion comentarios
   ilustracion : Js.value) : Sql.result Hitos.row :=
  e <-? not_null "etapa_id" as_int (Sql.escape etapa_id) ;;
  fi <-? not_null "fecha_inicio" as_date (Sql.escape fecha_inicio) ;;
  u <-? not_null "ubicacion" (as_varchar 255) (Sql.escape ubicacion) ;;
  ff <-? nullable "fecha_finalizacion" as_date (Sql.escape fecha_finalizacion) ;;
  c <-? nullable "comentarios" as_text (Sql.escape comentarios) ;;
  il <-? nullable "ilustracion" (as_varchar 255) (Sql.escape ilustracion) ;;
  _ <-? references es e ;;
  inr {| Hitos.id := id;
         Hitos.item := item;
         Hitos.etapa_id := e;
         Hitos.fecha_inicio := fi;
         Hitos.ubicacion := u;
         Hitos.fecha_finalizacion := ff;
         Hitos.comentarios := c;
         Hitos.ilustracion := il |}.

(** [SET etapa_id = ?, fecha_inicio = ?, ubicacion = ?,
    fecha_finalizacion = ?, comentarios = ?, ilustracion = ?] on one row:
    [id] and [item] are not among the assigned columns. *)
Definition assign (es : list Etapas.row)
  (etapa_id fecha_inicio ubicacion fecha_finalizacion comentarios
   ilustracion : Js.value) (old : Hitos.row) : Sql.result Hitos.row :=
  hito_row es (Hitos.id old) (Hitos.item old) etapa_id fecha_inicio
           ubicacion fecha_finalizacion comentarios ilustracion.

(** [UPDATE ... WHERE id = ?] over the rows in table order: a row with
    another id is kept, a row with this id is reassigned, and the first
    refusal fails the statement. *)
Fixpoint update_rows (f : Hitos.row -> Sql.result Hitos.row) (id : Z)
  (hs : list Hitos.row) : Sql.result (list Hitos.row) :=
  match hs with
  | [] => inr []
  | h :: hs' =>
      h' <-? (if Hitos.id h =? id then f h else inr h) ;;
      hs'' <-? update_rows f id hs' ;;
      inr (h' :: hs'')
  end.

Definition with_etapas (d : database) (t : table Etapas.row) : database :=
  {| etapas := Some t; hitos := hitos d |}.

Definition with_hitos (d : database) (t : table Hitos.row) : database :=
  {| etapas := etapas d; hitos := Some t |}.

(** The store's execution of one statement: the refusal, or the result
    with the database after it.  A refused statement changes nothing. *)
Definition exec (s : stmt) (d : database) : Sql.result (rowset * database) :=
  match s with
  | CREATE_TABLE_etapas =>
      match etapas d with
      | Some _ => inr (ResultSetHeader 0, d)
      | None =>
          inr (ResultSetHeader 0,
               with_etapas d {| rows := []; auto_increment := 1 |})
      end
  | CREATE_TABLE_hitos =>
      match hitos d with
      | Some _ => inr (ResultSetHeader 0, d)
      | None =>
          match etapas d with
          | Some _ =>
              inr (ResultSetHeader 0,
                   with_hitos d {| rows := []; auto_increment := 1 |})
          | None => inl (Sql.ER_FK_CANNOT_OPEN_PARENT "etapas")
          end
      end
  | SELECT_etapas =>
      t <-? the_etapas d ;;
      inr (Rows_etapas (rows t), d)
  | INSERT_default_etapas =>
      t <-? the_etapas d ;;
      let n := auto_increment t in
      inr (ResultSetHeader n,
           with_etapas d {| rows := rows t ++ default_etapas n;
                            auto_increment := n + 4 |})
  | SELECT_etapas_ORDER_BY_id =>
      t <-? the_etapas d ;;
      inr (Rows_etapas (order_by Etapas.id (rows t)), d)
  | INSERT_etapas nombre color =>
      t <-? the_etapas d ;;
      n <-? not_null "nombre" (as_varchar 100) (Sql.escape nombre) ;;
      c <-? not_null "color" (as_varchar 7) (Sql.escape color) ;;
      let i := auto_increment t in
      inr (ResultSetHeader i,
           with_etapas d
             {| rows := rows t ++ [ {| Etapas.id := i;
                                       Etapas.nombre := n;
                                       Etapas.color := c |} ];
                auto_increment := i + 1 |})
  | SELECT_COUNT_hitos etapa_id =>
      t <-? the_hitos d ;;
      inr (Rows_count (count_hitos etapa_id (rows t)), d)
  | DELETE_etapas id =>
      t <-? the_etapas d ;;
      if existsb (fun e => Etapas.id e =? id) (rows t)
         && existsb (fun h => Hitos.etapa_id h =? id) (hitos_rows d)
      then inl Sql.ER_ROW_IS_REFERENCED
      else
        inr (ResultSetHeader 0,
             with_etapas d
               {| rows := filter (fun e => negb (Etapas.id e =? id)) (rows t);
                  auto_increment := auto_increment t |})
  | SELECT_hitos_JOIN_etapas =>
      th <-? the_hitos d ;;
      te <-? the_etapas d ;;
      inr (Rows_hitos
             (order_by (fun j => Hitos.item (Hitos.h j))
                       (join (rows th) (rows te))), d)
  | INSERT_hitos item etapa_id fecha_inicio ubicacion fecha_finalizacion
                 comentarios ilustracion =>
      t <-? the_hitos d ;;
      it <-? not_null "item" as_int (Sql.escape item) ;;
      let i := auto_increment t in
      r <-? hito_row (etapas_rows d) i it etapa_id fecha_inicio ubicacion
              fecha_finalizacion comentarios ilustracion ;;
      inr (ResultSetHeader i,
           with_hitos d {| rows := rows t ++ [r]; auto_increment := i + 1 |})
  | UPDATE_hitos etapa_id fecha_inicio ubicacion fecha_finalizacion
                 comentarios ilustracion id =>
      t <-? the_hitos d ;;
      hs <-? update_rows
               (assign (etapas_rows d) etapa_id fecha_inicio ubicacion
                       fecha_finalizacion comentarios ilustracion)
               id (rows t) ;;
      inr (ResultSetHeader 0,
           with_hitos d {| rows := hs; auto_increment := auto_increment t |})
  | DELETE_hitos id =>
      t <-? the_hitos d ;;
      inr (ResultSetHeader 0,
           with_hitos d
             {| rows := filter (fun h => negb (Hitos.id h =? id)) (rows t);
                auto_increment := auto_increment t |})
  end.

End Store.

(** ** The process: pool, store, console

    [outages] says, for each forthcoming round trip to the store, whether
    the store is unreachable for it (an exhausted list: reachable);
    [leased] counts the connections taken from the pool and not yet
    released (the pool holds ten, which one bootstrap does not exhaust);
    [issued] records the statements handed to the driver. *)
Record world : Type := {
  db : database;
  outages : list bool;
  leased : nat;
  issued : list stmt;
  console : list string
}.

(** Completion of an asynchronous step: a value, or a thrown error. *)
Inductive completion (A : Type) : Type :=
| Normal (a : A)
| Abrupt (e : Sql.error).
Arguments Normal {A} a.
Arguments Abrupt {A} e.

Definition M (A : Type) : Type := world -> completion A * world.

Definition ret {A} (a : A) : M A := fun w => (Normal a, w).

Definition bind {A B} (m : M A) (k : A -> M B) : M B :=
  fun w =>
    match m w with
    | (Normal a, w') => k a w'
    | (Abrupt e, w') => (Abrupt e, w')
    end.

(** [try { m } catch (error) { handler }]: the effects of [m] up to the
    throw are kept. *)
Definition try_catch {A} (m : M A) (handler : Sql.error -> M A) : M A :=
  fun w =>
    match m w with
    | (Normal a, w') => (Normal a, w')
    | (Abrupt e, w') => handler e w'
    end.

Notation "x <- m ;; k" := (bind m (fun x => k))
  (at level 61, m at next level, right associativity).
Notation "m ;; k" := (bind m (fun _ => k))
  (at level 61, right associativity).

Definition console_log (msg : string) : M unit :=
  fun w =>
    (Normal tt,
     {| db := db w; outages := outages w; leased := leased w;
        issued := issued w; console := console w ++ [msg] |}).

Definition console_error : string -> M unit := console_log.

Section Pool.
Context {E : engine}.

(** The process after the statement [s] went to the store and left the
    database [d]. *)
Definition sent (s : stmt) (w : world) (d : database) : world :=
  {| db := d; outages := tl (outages w); leased := leased w;
     issued := issued w ++ [s]; console := console w |}.

(** One round trip: the statement is recorded; it throws when the store
    is unreachable or refuses it, and otherwise resolves to its result. *)
Definition round_trip (s : stmt) : M rowset :=
  fun w =>
    match outages w with
    | true :: _ => (Abrupt Sql.ECONNREFUSED, sent s w (db w))
    | _ =>
        match exec s (db w) with
        | inl e => (Abrupt e, sent s w (db w))
        | inr (r, d) => (Normal r, sent s w d)
        end
    end.

(** [pool.query]: takes a connection for the statement and gives it
    back itself, whatever the outcome. *)
Definition pool_query : stmt -> M rowset := round_trip.

(** [pool.getConnection()]: the caller now holds a connection. *)
Definition pool_getConnection : M unit :=
  fun w =>
    match outages w with
    | true :: rest =>
        (Abrupt Sql.ECONNREFUSED,
         {| db := db w; outages := rest; leased := leased w;
            issued := issued w; console := console w |})
    | _ =>
        (Normal tt,
         {| db := db w; outages := tl (outages w); leased := S (leased w);
            issued := issued w; console := console w |})
    end.

(** [connection.query] on the connection held. *)
Definition connection_query : stmt -> M rowset := round_trip.

(** [connection.release()]. *)
Definition connection_release : M unit :=
  fun w =>
    (Normal tt,
     {| db := db w; outages := outages w; leased := pred (leased w);
        issued := issued w; console := console w |}).

End Pool.

(** The first element of the pair a query resolves to, read at the type
    the caller uses it at. *)
Definition etapas_of (r : rowset) : list Etapas.row :=
  match r with Rows_etapas l => l | _ => [] end.

Definition hitos_of (r : rowset) : list Hitos.joined :=
  match r with Rows_hitos l => l | _ => [] end.

Definition count_of (r : rowset) : Z :=
  match r with Rows_count n => n | _ => 0 end.

Definition insertId_of (r : rowset) : Z :=
  match r with ResultSetHeader i => i | _ => 0 end.

(** ** Requests and responses *)

(** [req.body] of [POST /api/etapas], read by
    [const { nombre, color } = req.body]. *)
Module EtapaBody.
Record t : Type := {
  nombre : Js.value;
  color : Js.value
}.
End EtapaBody.

(** [req.body] of [POST /api/hitos] and [PUT /api/hitos/:id] (which does
    not read [item]). *)
Module HitoBody.
Record t : Type := {
  item : Js.value;
  etapa_id : Js.value;
  fecha_inicio : Js.value;
  ubicacion : Js.value;
  fecha_finalizacion : Js.value;
  comentarios : Js.value;
  ilustracion : Js.value
}.
End HitoBody.

Inductive payload : Type :=
| Json_etapas (l : list Etapas.row)
| Json_etapa (id : Z) (nombre color : Js.value)
| Json_hitos (l : list Hitos.joined)
| Json_id_success (id : Z)
| Json_success
| Json_error (error : string)
| Json_url (url : string)
| Error_page.

Record response : Type := {
  status : Z;
  body : payload
}.

(** [res.json(x)] and [res.status(n).json(x)]. *)
Definition res_json (x : payload) : M response :=
  ret {| status := 200; body := x |}.

Definition res_status_json (n : Z) (x : payload) : M response :=
  ret {| status := n; body := x |}.

Section Routes.
Context {E : engine}.

(** [initDB]: the schema bootstrapper. *)
Definition initDB : M unit :=
  try_catch
    (pool_getConnection ;;
     connection_query CREATE_TABLE_etapas ;;
     connection_query CREATE_TABLE_hitos ;;
     etapas <- connection_query SELECT_etapas ;;
     (if Nat.eqb (List.length (etapas_of etapas)) 0
      then connection_query INSERT_default_etapas ;; ret tt
      else ret tt) ;;
     connection_release ;;
     console_log "Base de datos inicializada correctamente")
    (fun error =>
       console_error "Error al inicializar la base de datos:").

(** [app.get('/api/etapas')]. *)
Definition get_api_etapas : M response :=
  try_catch
    (rows <- pool_query SELECT_etapas_ORDER_BY_id ;;
     res_json (Json_etapas (etapas_of rows)))
    (fun error =>
       console_error "Error al obtener etapas:" ;;
       res_status_json 500 (Json_error "Error al obtener etapas")).

(** [app.post('/api/etapas')]. *)
Definition post_api_etapas (b : EtapaBody.t) : M response :=
  try_catch
    (let nombre := EtapaBody.nombre b in
     let color := EtapaBody.color b in
     result <- pool_query (INSERT_etapas nombre color) ;;
     res_status_json 201 (Json_etapa (insertId_of result) nombre color))
    (fun error =>
       console_error "Error al crear etapa:" ;;
       res_status_json 500 (Json_error "Error al crear etapa")).

(** [app.delete('/api/etapas/:id')]. *)
Definition delete_api_etapas (id : Z) : M response :=
  try_catch
    (hitos <- pool_query (SELECT_COUNT_hitos id) ;;
     if count_of hitos >? 0
     then
       res_status_json 400
         (Json_error
            "No se puede eliminar esta etapa porque está siendo utilizada por uno o más hitos")
     else
       pool_query (DELETE_etapas id) ;;
       res_json Json_success)
    (fun error =>
       console_error "Error al eliminar etapa:" ;;
       res_status_json 500 (Json_error "Error al eliminar etapa")).

(** [app.get('/api/hitos')]. *)
Definition get_api_hitos : M response :=
  try_catch
    (rows <- pool_query SELECT_hitos_JOIN_etapas ;;
     res_json (Json_hitos (hitos_of rows)))
    (fun error =>
       console_error "Error al obtener hitos:" ;;
       res_status_json 500 (Json_error "Error al obtener hitos")).

(** [app.post('/api/hitos')]. *)
Definition post_api_hitos (b : HitoBody.t) : M response :=
  try_catch
    (result <- pool_query
                 (INSERT_hitos (HitoBody.item b) (HitoBody.etapa_id b)
                    (HitoBody.fecha_inicio b) (HitoBody.ubicacion b)
                    (Js.or (HitoBody.fecha_finalizacion b) Js.Null)
                    (HitoBody.comentarios b) (HitoBody.ilustracion b)) ;;
     res_status_json 201 (Json_id_success (insertId_of result)))
    (fun error =>
       console_error "Error al crear hito:" ;;
       res_status_json 500 (Json_error "Error al crear hito")).

(** [app.put('/api/hitos/:id')]. *)
Definition put_api_hitos (id : Z) (b : HitoBody.t) : M response :=
  try_catch
    (pool_query
       (UPDATE_hitos (HitoBody.etapa_id b) (HitoBody.fecha_inicio b)
          (HitoBody.ubicacion b)
          (Js.or (HitoBody.fecha_finalizacion b) Js.Null)
          (HitoBody.comentarios b) (HitoBody.ilustracion b) id) ;;
     res_json Json_success)
    (fun error =>
       console_error "Error al actualizar hito:" ;;
       res_status_json 500 (Json_error "Error al actualizar hito")).

(** [app.delete('/api/hitos/:id')]. *)
Definition delete_api_hitos (id : Z) : M response :=
  try_catch
    (pool_query (DELETE_hitos id) ;;
     res_json Json_success)
    (fun error =>
       console_error "Error al eliminar hito:" ;;
       res_status_json 500 (Json_error "Error al eliminar hito")).

End Routes.

(** ** Uploads

    File names and MIME types are byte strings. *)

(** [String.prototype.toLowerCase], on the letters the filter's pattern
    can see. *)
Definition lower (c : ascii) : ascii :=
  let n := nat_of_ascii c in
  if (Nat.leb 65 n && Nat.leb n 90)%bool then ascii_of_nat (n + 32) else c.

Fixpoint toLowerCase (s : string) : string :=
  match s with
  | EmptyString => EmptyString
  | String c s' => String (lower c) (toLowerCase s')
  end.

(** [String.prototype.includes]. *)
Fixpoint includes (needle hay : string) : bool :=
  (String.prefix needle hay
   || match hay with
      | EmptyString => false
      | String _ hay' => includes needle hay'
      end)%bool.

(** The alternatives of [/jpeg|jpg|png|gif/]. *)
Definition filetypes : list string := ["jpeg"; "jpg"; "png"; "gif"].

(** [filetypes.test(s)]: the pattern has no anchor, so it matches when
    some alternative occurs anywhere in [s]. *)
Definition filetypes_test (s : string) : bool :=
  existsb (fun alt => includes alt s) filetypes.

(** [path.extname] (POSIX): the scan from the end of the path that Node
    performs, with its five variables. *)
Record scan : Type := {
  startDot : Z;
  startPart : Z;
  end_ : Z;
  matchedSlash : bool;
  preDotState : Z
}.

Definition see_char (c : ascii) (i : Z) (st : scan) : scan :=
  let st :=
    if end_ st =? -1
    then {| startDot := startDot st; startPart := startPart st;
            end_ := i + 1; matchedSlash := false;
            preDotState := preDotState st |}
    else st in
  if Ascii.eqb c "."
  then
    if startDot st =? -1
    then {| startDot := i; startPart := startPart st; end_ := end_ st;
            matchedSlash := matchedSlash st; preDotState := preDotState st |}
    else if negb (preDotState st =? 1)
    then {| startDot := startDot st; startPart := startPart st;
            end_ := end_ st; matchedSlash := matchedSlash st;
            preDotState := 1 |}
    else st
  else
    if negb (startDot st =? -1)
    then {| startDot := startDot st; startPart := startPart st;
            end_ := end_ st; matchedSlash := matchedSlash st;
            preDotState := -1 |}
    else st.

(** The loop [for (i = path.length - 1; i >= 0; --i)], over the
    characters from the last one. *)
Fixpoint extname_loop (backwards : list ascii) (i : Z) (st : scan) : scan :=
  match backwards with
  | [] => st
  | c :: rest =>
      if Ascii.eqb c "/"
      then
        if negb (matchedSlash st)
        then {| startDot := startDot st; startPart := i + 1;
                end_ := end_ st; matchedSlash := matchedSlash st;
                preDotState := preDotState st |}
        else extname_loop rest (i - 1) st
      else extname_loop rest (i - 1) (see_char c i st)
  end.

Definition extname (path : string) : string :=
  let st :=
    extname_loop (rev (list_ascii_of_string path))
      (Z.of_nat (String.length path) - 1)
      {| startDot := -1; startPart := 0; end_ := -1;
         matchedSlash := true; preDotState := 0 |} in
  if ((startDot st =? -1)
      || (end_ st =? -1)
      || (preDotState st =? 0)
      || ((preDotState st =? 1)
          && (startDot st =? end_ st - 1)
          && (startDot st =? startPart st + 1)))%bool
  then ""
  else substring (Z.to_nat (startDot st))
                 (Z.to_nat (end_ st - startDot st)) path.

(** The [file] object that multer hands to the filter and to the
    storage: the name and the MIME type are those that the multipart
    parser reports for the part. *)
Module File.
Record t : Type := {
  originalname : string;
  mimetype : string;
  size : Z
}.
End File.

(** [req.file] as the disk storage leaves it. *)
Module Stored.
Record t : Type := {
  originalname : string;
  mimetype : string;
  destination : string;
  filename : string;
  size : Z
}.
End Stored.

(** A file part of the body as the client sent it: the field it is sent
    under, the [filename] of its [Content-Disposition], its
    [Content-Type] (empty when the part has none) and the number of
    bytes of its content. *)
Module Part.
Record t : Type := {
  name : string;
  filename : string;
  content_type : string;
  size : Z
}.
End Part.

(** The multipart parser that multer reads the body with: what it
    reports as [info.mimeType] for the [Content-Type] of a part and as
    [info.filename] for its declared file name. *)
Class multipart : Type := {
  mimeType_of : string -> string;
  filename_of : string -> string
}.

(** The file object built for a part. *)
Definition file_of {P : multipart} (p : Part.t) : File.t :=
  {| File.originalname := filename_of (Part.filename p);
     File.mimetype := mimeType_of (Part.content_type p);
     File.size := Part.size p |}.

(** *** busboy

    The parser for the examples: [parseContentType] and [basename] as
    busboy has them. *)

(** The characters of an HTTP token. *)
Definition TOKEN (c : ascii) : bool :=
  let n := nat_of_ascii c in
  (Nat.leb 48 n && Nat.leb n 57
   || Nat.leb 65 n && Nat.leb n 90
   || Nat.leb 97 n && Nat.leb n 122
   || existsb (Nat.eqb n)
        [33; 35; 36; 37; 38; 39; 42; 43; 45; 46; 94; 95; 96; 124; 126]%nat)%bool.

(** The characters allowed inside a quoted parameter value. *)
Definition QDTEXT (c : ascii) : bool :=
  let n := nat_of_ascii c in
  (Nat.eqb n 9 || Nat.eqb n 32 || Nat.eqb n 33
   || Nat.leb 35 n && Nat.leb n 91
   || Nat.leb 93 n && Nat.leb n 126
   || Nat.leb 128 n)%bool.

Definition whitespace (c : ascii) : bool :=
  let n := nat_of_ascii c in (Nat.eqb n 32 || Nat.eqb n 9)%bool.

Definition double_quote : ascii := ascii_of_nat 34.
Definition backslash : ascii := ascii_of_nat 92.

(** The longest prefix of token characters, and what follows it. *)
Fixpoint span_token (s : string) : string * string :=
  match s with
  | EmptyString => (EmptyString, EmptyString)
  | String c s' =>
      if TOKEN c
      then let (t, rest) := span_token s' in (String c t, rest)
      else (EmptyString, s)
  end.

(** [parseContentTypeParams], followed for its verdict only: where the
    scan of the parameters [; name=value] stands. *)
Inductive params_scan : Type :=
| Before_semicolon
| After_semicolon
| In_name
| After_equals
| In_value
| In_quoted (escaping : bool)
| Malformed.

Definition between_params (c : ascii) : params_scan :=
  if whitespace c then Before_semicolon
  else if Ascii.eqb c ";" then After_semicolon
  else Malformed.

Definition params_step (st : params_scan) (c : ascii) : params_scan :=
  match st with
  | Before_semicolon => between_params c
  | After_semicolon =>
      if whitespace c then After_semicolon
      else if TOKEN c then In_name
      else if Ascii.eqb c "=" then After_equals
      else Malformed
  | In_name =>
      if TOKEN c then In_name
      else if Ascii.eqb c "=" then After_equals
      else Malformed
  | After_equals =>
      if Ascii.eqb c double_quote then In_quoted false
      else if TOKEN c then In_value
      else Malformed
  | In_value => if TOKEN c then In_value else between_params c
  | In_quoted escaping =>
      if Ascii.eqb c backslash then In_quoted (negb escaping)
      else if Ascii.eqb c double_quote
      then if escaping then In_quoted false else Before_semicolon
      else if QDTEXT c then In_quoted false
      else Malformed
  | Malformed => Malformed
  end.

Definition parseContentTypeParams (s : string) : bool :=
  match fold_left params_step (list_ascii_of_string s) Before_semicolon with
  | Before_semicolon | In_value => true
  | _ => false
  end.

(** [parseContentType]: the type and the subtype in lower case, or
    nothing for a header that is not [type/subtype] with well-formed
    parameters. *)
Definition parseContentType (str : string) : option (string * string) :=
  let (type, rest) := span_token str in
  match rest with
  | String c rest' =>
      if (Ascii.eqb c "/" && negb (String.eqb type ""))%bool
      then
        let (subtype, params) := span_token rest' in
        if String.eqb subtype "" then None
        else if parseContentTypeParams params
        then Some (toLowerCase type, toLowerCase subtype)
        else None
      else None
  | EmptyString => None
  end.

(** The MIME type of a part: [text/plain] unless the header parses. *)
Definition partType (header : string) : string :=
  match parseContentType header with
  | Some (type, subtype) => (type ++ "/" ++ subtype)%string
  | None => "text/plain"
  end.

(** What follows the last [/] or [\] of a name, if it has one. *)
Fixpoint after_separator (s : string) : option string :=
  match s with
  | EmptyString => None
  | String c s' =>
      match after_separator s' with
      | Some t => Some t
      | None =>
          if (Ascii.eqb c "/" || Ascii.eqb c backslash)%bool
          then Some s' else None
      end
  end.

(** [basename]: the last component of the declared name. *)
Definition basename (path : string) : string :=
  let path :=
    match after_separator path with Some t => t | None => path end in
  if (String.eqb path ".." || String.eqb path ".")%bool then "" else path.

#[export] Instance busboy : multipart :=
  {| mimeType_of := partType; filename_of := basename |}.

(** [limits: { fileSize: 5 * 1024 * 1024 }]: the number of bytes at
    which the parser stops a file and multer gives up the request. *)
Definition limits_fileSize : Z := 5 * 1024 * 1024.

(** What a multer callback is called with: [cb(error)] or
    [cb(null, value)]; the errors of multer itself carry a code. *)
Inductive multer_error : Type :=
| Filter_error (message : string)
| LIMIT_FILE_SIZE
| LIMIT_UNEXPECTED_FILE.

(** [fileFilter]. *)
Definition fileFilter (file : File.t) : multer_error + bool :=
  let mimetype := filetypes_test (File.mimetype file) in
  let extname :=
    filetypes_test (toLowerCase (extname (File.originalname file))) in
  if (mimetype && extname)%bool
  then inr true
  else inl (Filter_error "Solo se permiten imágenes (jpeg, jpg, png, gif)").

(** The number as [+] turns it into a string. *)
Definition decimal (n : Z) : string := NilZero.string_of_int (Z.to_int n).

(** [storage]: the [destination] and [filename] callbacks; [now] is
    [Date.now()]. *)
Definition storage_destination : string := "uploads".

Definition storage_filename (now : Z) (file : File.t) : string :=
  (decimal now ++ extname (File.originalname file))%string.

(** A request to [/api/upload]: the [Host] header, the file parts of
    the body in the order they are sent, and the clock. *)
Record upload_request : Type := {
  host : option string;
  parts : list Part.t;
  now : Z
}.

(** [req.protocol]: the process listens with [app.listen], without TLS,
    and trusts no proxy. *)
Definition req_protocol : string := "http".

(** The file object of the first part sent under the field [imagen]. *)
Definition imagen {P : multipart} (r : upload_request) : option File.t :=
  option_map file_of
    (find (fun p => String.eqb (Part.name p) "imagen") (parts r)).

(** multer over the file parts, one after the other.  A part whose file
    name is empty is passed over.  [filesLeft] is what is left of the
    one file allowed under [imagen]: a file under another field, or a
    second one under [imagen], is an unexpected file.  Then the filter
    is asked, and the file is written until its size reaches the
    limit. *)
Fixpoint multer_files {P : multipart} (now : Z) (filesLeft : nat)
  (ps : list Part.t) (file : option Stored.t)
  : multer_error + option Stored.t :=
  match ps with
  | [] => inr file
  | p :: rest =>
      let f := file_of p in
      if String.eqb (File.originalname f) ""
      then multer_files now filesLeft rest file
      else if (negb (String.eqb (Part.name p) "imagen")
               || Nat.eqb filesLeft 0)%bool
      then inl LIMIT_UNEXPECTED_FILE
      else
        match fileFilter f with
        | inl err => inl err
        | inr false => multer_files now (filesLeft - 1) rest file
        | inr true =>
            if File.size f <? limits_fileSize
            then multer_files now (filesLeft - 1) rest
                   (Some {| Stored.originalname := File.originalname f;
                            Stored.mimetype := File.mimetype f;
                            Stored.destination := storage_destination;
                            Stored.filename := storage_filename now f;
                            Stored.size := File.size f |})
            else inl LIMIT_FILE_SIZE
        end
  end.

(** [upload.single('imagen')]. *)
Definition upload_single {P : multipart} (r : upload_request)
  : multer_error + option Stored.t :=
  multer_files (now r) 1 (parts r) None.

(** [`${x}`] of a header that may be absent. *)
Definition template (x : option string) : string :=
  match x with Some s => s | None => "undefined" end.

(** The handler of [app.post('/api/upload')]. *)
Definition upload_handler (r : upload_request) (file : option Stored.t)
  : response :=
  match file with
  | None =>
      {| status := 400; body := Json_error "No se ha enviado ninguna imagen" |}
  | Some f =>
      let url :=
        (req_protocol ++ "://" ++ template (host r) ++ "/uploads/"
         ++ Stored.filename f)%string in
      {| status := 200; body := Json_url url |}
  end.

(** The route: the middleware, then the handler; an error passed on by
    the middleware reaches the framework's final handler, which answers
    500 for an error that carries no status. *)
Definition post_api_upload {P : multipart} (r : upload_request) : response :=
  match upload_single r with
  | inl err => {| status := 500; body := Error_page |}
  | inr file => upload_handler r file
  end.

(** Acceptance of a file by the upload: it ends up stored as
    [req.file]. *)
Definition accepted {P : multipart} (r : upload_request) : bool :=
  match upload_single r with
  | inr (Some _) => true
  | _ => false
  end.

(** ** A store for the examples

    A strict store: integers within the range of [INT], either as
    numerals or as decimal text; dates as [YYYY-MM-DD] text; text no
    longer than the column is wide. *)
Definition digit (c : ascii) : bool :=
  let n := nat_of_ascii c in (Nat.leb 48 n && Nat.leb n 57)%bool.

Definition in_INT (n : Z) : bool := (-2147483648 <=? n) && (n <=? 2147483647).

Definition strict_int (v : Sql.literal) : option Z :=
  match v with
  | Sql.NULL => None
  | Sql.Int n => if in_INT n then Some n else None
  | Sql.Text "" => None
  | Sql.Text s =>
      match NilZero.int_of_string s with
      | Some d => if in_INT (Z.of_int d) then Some (Z.of_int d) else None
      | None => None
      end
  end.

Definition strict_date (v : Sql.literal) : option string :=
  match v with
  | Sql.Text s =>
      match list_ascii_of_string s with
      | [y1; y2; y3; y4; a; m1; m2; b; d1; d2] =>
          if (forallb digit [y1; y2; y3; y4; m1; m2; d1; d2]
              && Ascii.eqb a "-" && Ascii.eqb b "-")%bool
          then Some s else None
      | _ => None
      end
  | _ => None
  end.

Definition strict_varchar (n : nat) (v : Sql.literal) : option string :=
  match v with
  | Sql.NULL => None
  | Sql.Int i => if Nat.leb (String.length (decimal i)) n
                 then Some (decimal i) else None
  | Sql.Text s => if Nat.leb (String.length s) n then Some s else None
  end.

Definition strict_text (v : Sql.literal) : option string :=
  match v with
  | Sql.NULL => None
  | Sql.Int i => Some (decimal i)
  | Sql.Text s => Some s
  end.

Definition strict : engine :=
  {| as_int := strict_int;
     as_date := strict_date;
     as_varchar := strict_varchar;
     as_text := strict_text |}.

(** The process at start-up, before [initDB]: no table, nothing leased. *)
Definition startup (o : list bool) : world :=
  {| db := {| etapas := None; hitos := None |};
     outages := o; leased := 0; issued := []; console := [] |}.

(** The process after a bootstrap that met no outage. *)
Definition bootstrapped : world := snd (initDB (E := strict) (startup [])).

(** A milestone, and the process after it was created. *)
Definition hito_1 : HitoBody.t :=
  {| HitoBody.item := Js.Num 1;
     HitoBody.etapa_id := Js.Num 1;
     HitoBody.fecha_inicio := Js.Str "2024-01-15";
     HitoBody.ubicacion := Js.Str "Lima";
     HitoBody.fecha_finalizacion := Js.Undefined;
     HitoBody.comentarios := Js.Str "primer hito";
     HitoBody.ilustracion := Js.Str "http://localhost:3000/uploads/1.png" |}.

Definition with_hito_1 : world :=
  snd (post_api_hitos (E := strict) hito_1 bootstrapped).



(** An update body that carries a new stage, start, location and
    completion date, and neither comments nor illustration. *)
Definition move_to_cusco : HitoBody.t :=
  {| HitoBody.item := Js.Undefined;
     HitoBody.etapa_id := Js.Num 2;
     HitoBody.fecha_inicio := Js.Str "2024-01-15";
     HitoBody.ubicacion := Js.Str "Cusco";
     HitoBody.fecha_finalizacion := Js.Str "2024-03-01";
     HitoBody.comentarios := Js.Undefined;
     HitoBody.ilustracion := Js.Undefined |}.

(** An update body that carries a location and a completion date only. *)
Definition only_location_and_completion : HitoBody.t :=
  {| HitoBody.item := Js.Undefined;
     HitoBody.etapa_id := Js.Undefined;
     HitoBody.fecha_inicio := Js.Undefined;
     HitoBody.ubicacion := Js.Str "Cusco";
     HitoBody.fecha_finalizacion := Js.Str "2024-03-01";
     HitoBody.comentarios := Js.Undefined;
     HitoBody.ilustracion := Js.Undefined |}.

(** A create body without comments and illustration. *)
Definition bare_hito : HitoBody.t :=
  {| HitoBody.item := Js.Num 2;
     HitoBody.etapa_id := Js.Num 1;
     HitoBody.fecha_inicio := Js.Str "2024-02-01";
     HitoBody.ubicacion := Js.Str "Arequipa";
     HitoBody.fecha_finalizacion := Js.Str "";
     HitoBody.comentarios := Js.Undefined;
     HitoBody.ilustracion := Js.Undefined |}.

(** A stage body without a colour. *)
Definition etapa_sin_color : EtapaBody.t :=
  {| EtapaBody.nombre := Js.Str "Revisión"; EtapaBody.color := Js.Undefined |}.

(** The listing a client obtains from [GET /api/hitos]. *)
Definition listing {E : engine} (w : world) : list Hitos.joined :=
  match fst (get_api_hitos w) with
  | Normal r =>
      match body r with Json_hitos l => l | _ => [] end
  | Abrupt _ => []
  end.

(** An upload of an image whose extension and MIME type only contain
    [png]. *)
Definition apngx : upload_request :=
  {| host := Some "localhost:3000";
     parts := [{| Part.name := "imagen";
                  Part.filename := "anim.apngx";
                  Part.content_type := "image/x-apngx";
                  Part.size := 2 * 1024 * 1024 |}];
     now := 1700000000000 |}.

(** An upload of one file under the field [field]. *)
Definition upload_of (field filename content_type : string) (size : Z)
  : upload_request :=
  {| host := Some "hitos.example.org";
     parts := [{| Part.name := field;
                  Part.filename := filename;
                  Part.content_type := content_type;
                  Part.size := size |}];
     now := 1700000000000 |}.

(** An upload of a 2 MiB photograph. *)
Definition photo : upload_request :=
  upload_of "imagen" "obra.PNG" "image/png" (2 * 1024 * 1024).

(** The same photograph declared as a PDF, one of 6 MiB, one of exactly
    5 MiB, and one under another field. *)
Definition photo_as_pdf : upload_request :=
  upload_of "imagen" "obra.png" "application/pdf" (2 * 1024 * 1024).

Definition photo_6MiB : upload_request :=
  upload_of "imagen" "obra.png" "image/png" (6 * 1024 * 1024).

Definition photo_5MiB : upload_request :=
  upload_of "imagen" "obra.png" "image/png" (5 * 1024 * 1024).

Definition photo_as_foto : upload_request :=
  upload_of "foto" "obra.png" "image/png" (2 * 1024 * 1024).

(** The photograph with its type in capitals, and with a type that is
    no [type/subtype] pair. *)
Definition photo_IMAGE_PNG : upload_request :=
  upload_of "imagen" "obra.png" "IMAGE/PNG" (2 * 1024 * 1024).

Definition photo_typed_png : upload_request :=
  upload_of "imagen" "obra.png" "png" (2 * 1024 * 1024).

(** A request without a file. *)
Definition no_photo : upload_request :=
  {| host := Some "hitos.example.org";
     parts := [];
     now := 1700000000000 |}.

(** The body with [null] written where comments or illustration are
    left out. *)
Definition null_if_undefined (v : Js.value) : Js.value :=
  match v with Js.Undefined => Js.Null | _ => v end.

Definition null_for_omitted (b : HitoBody.t) : HitoBody.t :=
  {| HitoBody.item := HitoBody.item b;
     HitoBody.etapa_id := HitoBody.etapa_id b;
     HitoBody.fecha_inicio := HitoBody.fecha_inicio b;
     HitoBody.ubicacion := HitoBody.ubicacion b;
     HitoBody.fecha_finalizacion := HitoBody.fecha_finalizacion b;
     HitoBody.comentarios := null_if_undefined (HitoBody.comentarios b);
     HitoBody.ilustracion := null_if_undefined (HitoBody.ilustracion b) |}.

(** ** Conditions on the process *)

(** No outage is pending. *)
Definition reachable (w : world) : Prop :=
  forallb negb (outages w) = true.

(** Both tables exist. *)
Definition created (d : database) : Prop :=
  etapas d <> None /\ hitos d <> None.

(** The store answers and the bootstrap has run. *)
Definition serving (w : world) : Prop :=
  reachable w /\ created (db w).

(** The foreign key of [hitos]: every milestone refers to a stage. *)
Definition referential (d : database) : Prop :=
  forallb
    (fun h => existsb (fun e => Etapas.id e =? Hitos.etapa_id h)
                      (etapas_rows d))
    (hitos_rows d) = true.

(** The id matches no row of the table. *)
Definition no_etapa (id : Z) (d : database) : Prop :=
  existsb (fun e => Etapas.id e =? id) (etapas_rows d) = false.

Definition no_hito (id : Z) (d : database) : Prop :=
  existsb (fun h => Hitos.id h =? id) (hitos_rows d) = false.

(** The identity columns of [hitos], which no [UPDATE] of the program
    assigns. *)
Definition identity (h : Hitos.row) : Z * Z := (Hitos.id h, Hitos.item h).

(** The row [new] is [old] with the six assigned columns holding the
    values of the body [b] as their columns store them (the completion
    date as the handler binds it, a falsy one being [null]), and with
    [id] and [item] as before. *)
Definition replaced {E : engine} (b : HitoBody.t) (old new : Hitos.row)
  : Prop :=
  identity new = identity old
  /\ not_null "etapa_id" as_int (Sql.escape (HitoBody.etapa_id b))
     = inr (Hitos.etapa_id new)
  /\ not_null "fecha_inicio" as_date (Sql.escape (HitoBody.fecha_inicio b))
     = inr (Hitos.fecha_inicio new)
  /\ not_null "ubicacion" (as_varchar 255)
       (Sql.escape (HitoBody.ubicacion b))
     = inr (Hitos.ubicacion new)
  /\ nullable "fecha_finalizacion" as_date
       (Sql.escape (Js.or (HitoBody.fecha_finalizacion b) Js.Null))
     = inr (Hitos.fecha_finalizacion new)
  /\ nullable "comentarios" as_text (Sql.escape (HitoBody.comentarios b))
     = inr (Hitos.comentarios new)
  /\ nullable "ilustracion" (as_varchar 255)
       (Sql.escape (HitoBody.ilustracion b))
     = inr (Hitos.ilustracion new).



(** A pattern alternative occurs in [s]. *)
Definition matches_filetypes (s : string) : Prop :=
  exists alt pre post,
    In alt filetypes /\ s = (pre ++ alt ++ post)%string.

(** ** The routes together

    The requests that [app.get], [app.post], [app.put] and [app.delete]
    register, and the dispatch to their handlers. *)
Inductive request : Type :=
| GET_api_etapas
| POST_api_etapas (b : EtapaBody.t)
| DELETE_api_etapas (id : Z)
| GET_api_hitos
| POST_api_hitos (b : HitoBody.t)
| PUT_api_hitos (id : Z) (b : HitoBody.t)
| DELETE_api_hitos (id : Z)
| POST_api_upload (r : upload_request).

Definition handle {E : engine} {P : multipart} (q : request) : M response :=
  match q with
  | GET_api_etapas => get_api_etapas
  | POST_api_etapas b => post_api_etapas b
  | DELETE_api_etapas id => delete_api_etapas id
  | GET_api_hitos => get_api_hitos
  | POST_api_hitos b => post_api_hitos b
  | PUT_api_hitos id b => put_api_hitos id b
  | DELETE_api_hitos id => delete_api_hitos id
  | POST_api_upload r => ret (post_api_upload r)
  end.

(** The process after serving the requests one after the other. *)
Fixpoint serve {E : engine} {P : multipart} (qs : list request) (w : world)
  : world :=
  match qs with
  | [] => w
  | q :: qs' => serve qs' (snd (handle q w))
  end.

(** The routes whose statement writes to a table. *)
Definition writes_etapas (q : request) : bool :=
  match q with
  | POST_api_etapas _ | DELETE_api_etapas _ => true
  | _ => false
  end.

Definition writes_hitos (q : request) : bool :=
  match q with
  | POST_api_hitos _ | PUT_api_hitos _ _ | DELETE_api_hitos _ => true
  | _ => false
  end.

(** [const PORT = process.env.PORT || 3000], as the template prints
    it. *)
Definition PORT (env_PORT : option string) : string :=
  match env_PORT with
  | Some s => if String.eqb s "" then "3000" else s
  | None => "3000"
  end.

(** [app.listen(PORT, callback)]: the callback logs the address (the
    port is taken to be free). *)
Definition app_listen (port : string) : M unit :=
  console_log ("Servidor corriendo en http://localhost:" ++ port)%string.

(** [initDB().then(() => app.listen(...))]: the start of the process. *)
Definition start {E : engine} (env_PORT : option string) : M unit :=
  initDB ;; app_listen (PORT env_PORT).

(** ** Primary keys

    [id INT AUTO_INCREMENT PRIMARY KEY]: the ids of a table, in table
    order, increase and stay below the counter. *)
Fixpoint ascending (ids : list Z) (bound : Z) : bool :=
  match ids with
  | [] => true
  | i :: rest =>
      forallb (fun j => i <? j) rest && (i <? bound) && ascending rest bound
  end.

Definition keyed (d : database) : Prop :=
  match etapas d with
  | Some t => ascending (map Etapas.id (rows t)) (auto_increment t) = true
  | None => True
  end
  /\ match hitos d with
     | Some t => ascending (map Hitos.id (rows t)) (auto_increment t) = true
     | None => True
     end.

(** A body for a milestone of a stage that does not exist, and a few
    requests in a row. *)
Definition hito_sin_etapa : HitoBody.t :=
  {| HitoBody.item := Js.Num 3;
     HitoBody.etapa_id := Js.Num 99;
     HitoBody.fecha_inicio := Js.Str "2024-04-01";
     HitoBody.ubicacion := Js.Str "Puno";
     HitoBody.fecha_finalizacion := Js.Null;
     HitoBody.comentarios := Js.Null;
     HitoBody.ilustracion := Js.Null |}.

Definition etapa_revision : EtapaBody.t :=
  {| EtapaBody.nombre := Js.Str "Revisión";
     EtapaBody.color := Js.Str "#123456" |}.

Definition a_session : list request :=
  [ POST_api_etapas etapa_revision;
    POST_api_hitos bare_hito;
    PUT_api_hitos 1 move_to_cusco;
    POST_api_hitos hito_sin_etapa;
    DELETE_api_etapas 3;
    DELETE_api_hitos 1;
    GET_api_hitos ].

(** The process after every default stage was deleted. *)
Definition emptied : world :=
  serve (E := strict)
    [DELETE_api_etapas 1; DELETE_api_etapas 2; DELETE_api_etapas 3;
     DELETE_api_etapas 4] bootstrapped.

(** * Properties *)

(** ** Lists and rows *)

Lemma filter_all {A} (f : A -> bool) (l : list A) :
  (forall x, In x l -> f x = true) -> filter f l = l.
Proof.
  induction l as [|x l IH]; simpl; intros Hall; [reflexivity|].
  rewrite (Hall x (or_introl eq_refl)).
  f_equal. apply IH. intros y Hy. apply Hall. now right.
Qed.

Lemma existsb_none {A} (f : A -> bool) (l : list A) :
  (forall x, In x l -> f x = false) -> existsb f l = false.
Proof.
  induction l as [|x l IH]; simpl; intros Hall; [reflexivity|].
  rewrite (Hall x (or_introl eq_refl)). simpl.
  apply IH. intros y Hy. apply Hall. now right.
Qed.

Lemma count_hitos_zero (id : Z) (hs : list Hitos.row) :
  count_hitos id hs = 0 <->
  forall h, In h hs -> Hitos.etapa_id h <> id.
Proof.
  unfold count_hitos. induction hs as [|h hs IH]; simpl.
  - split; [intros _ x []|reflexivity].
  - destruct (Z.eqb_spec (Hitos.etapa_id h) id) as [Heq|Hne]; simpl.
    + split; [lia|]. intros Hall. exfalso. exact (Hall h (or_introl eq_refl) Heq).
    + rewrite IH. split.
      * intros Hall x [<-|Hx]; auto.
      * intros Hall x Hx. apply Hall. now right.
Qed.

Lemma count_hitos_nonneg (id : Z) (hs : list Hitos.row) :
  0 <= count_hitos id hs.
Proof. unfold count_hitos. lia. Qed.

Lemma with_etapas_same (d : database) (t : table Etapas.row) :
  etapas d = Some t -> with_etapas d t = d.
Proof. destruct d; unfold with_etapas; simpl; now intros ->. Qed.

Lemma with_hitos_same (d : database) (t : table Hitos.row) :
  hitos d = Some t -> with_hitos d t = d.
Proof. destruct d; unfold with_hitos; simpl; now intros ->. Qed.

Lemma table_eta {R} (t : table R) :
  {| rows := rows t; auto_increment := auto_increment t |} = t.
Proof. now destruct t. Qed.

(** ** The round trip *)

Lemma reachable_cases (w : world) :
  reachable w ->
  outages w = [] \/ exists rest, outages w = false :: rest.
Proof.
  unfold reachable. destruct (outages w) as [|[|] rest]; [now left| |].
  - discriminate.
  - intros _. right. now exists rest.
Qed.

Lemma reachable_sent (s : stmt) (w : world) (d : database) :
  reachable w -> reachable (sent s w d).
Proof.
  unfold reachable, sent; simpl.
  destruct (outages w) as [|[|] rest]; simpl; auto. discriminate.
Qed.

Section RoundTrip.
Context {E : engine}.

Lemma round_trip_reachable (s : stmt) (w : world) :
  reachable w ->
  round_trip s w =
    match exec s (db w) with
    | inl e => (Abrupt e, sent s w (db w))
    | inr (r, d) => (Normal r, sent s w d)
    end.
Proof.
  intros H. unfold round_trip.
  destruct (reachable_cases w H) as [-> | [rest ->]]; reflexivity.
Qed.

Lemma round_trip_issued (s : stmt) (w : world) :
  issued (snd (round_trip s w)) = issued w ++ [s].
Proof.
  unfold round_trip.
  destruct (outages w) as [|[|] rest]; simpl; try reflexivity;
    destruct (exec s (db w)) as [e|[r d]]; reflexivity.
Qed.

End RoundTrip.

(** ** The handlers, step by step *)

Section Steps.
Context {E : engine}.

Lemma created_tables (d : database) :
  created d -> exists te th, etapas d = Some te /\ hitos d = Some th.
Proof.
  intros [He Hh]. destruct (etapas d) as [te|]; [|congruence].
  destruct (hitos d) as [th|]; [|congruence]. now exists te, th.
Qed.

(** A round trip either throws and leaves the database, or the store
    executed the statement. *)
Lemma round_trip_cases (s : stmt) (w : world) :
  (exists e, round_trip s w = (Abrupt e, sent s w (db w)))
  \/ (exists r d, exec s (db w) = inr (r, d)
                 /\ round_trip s w = (Normal r, sent s w d)).
Proof.
  unfold round_trip.
  destruct (outages w) as [|[|] rest].
  2: { left. now exists Sql.ECONNREFUSED. }
  all: destruct (exec s (db w)) as [e|[r d]];
    [left; now exists e | right; now exists r, d].
Qed.


Lemma delete_api_etapas_unreferenced (id : Z) (w : world) (te : table Etapas.row) :
  serving w ->
  etapas (db w) = Some te ->
  count_hitos id (hitos_rows (db w)) = 0 ->
  delete_api_etapas id w =
    (Normal {| status := 200; body := Json_success |},
     sent (DELETE_etapas id) (sent (SELECT_COUNT_hitos id) w (db w))
       (with_etapas (db w)
          {| rows := filter (fun e => negb (Etapas.id e =? id)) (rows te);
             auto_increment := auto_increment te |})).
Proof.
  intros [Hreach Hcreated] Hte Hzero.
  destruct (created_tables _ Hcreated) as (te' & th & Hte' & Hth).
  assert (Hnone : existsb (fun h => Hitos.etapa_id h =? id)
                          (hitos_rows (db w)) = false).
  { apply existsb_none. intros h Hh.
    apply Z.eqb_neq. revert h Hh. apply count_hitos_zero. exact Hzero. }
  unfold hitos_rows in Hzero. rewrite Hth in Hzero.
  unfold delete_api_etapas, try_catch, bind, pool_query.
  rewrite (round_trip_reachable _ _ Hreach).
  cbn [exec]. unfold the_hitos. rewrite Hth. cbn [Sql.bind count_of].
  rewrite Hzero. cbn [Z.gtb Z.compare].
  rewrite (round_trip_reachable _ _ (reachable_sent _ _ _ Hreach)).
  cbn [exec db sent]. unfold the_etapas. rewrite Hte. cbn [Sql.bind].
  rewrite Hnone, andb_false_r. reflexivity.
Qed.

End Steps.

(** ** Stage deletion *)

Section StageDeletion.
Context {E : engine}.


End StageDeletion.

Lemma serving_with_hito_1 : serving with_hito_1.
Proof.
  split.
  - reflexivity.
  - split; vm_compute; discriminate.
Qed.



(** ** Milestone update *)

Section MilestoneUpdate.
Context {E : engine}.

Lemma update_rows_absent (f : Hitos.row -> Sql.result Hitos.row) (id : Z)
  (hs : list Hitos.row) :
  (forall h, In h hs -> Hitos.id h <> id) ->
  update_rows f id hs = inr hs.
Proof.
  induction hs as [|h hs IH]; simpl; intros Habs; [reflexivity|].
  destruct (Z.eqb_spec (Hitos.id h) id) as [Heq|_].
  - exfalso. exact (Habs h (or_introl eq_refl) Heq).
  - cbn. rewrite IH; [reflexivity|]. intros x Hx. apply Habs. now right.
Qed.

(** What a row built by [hito_row] holds. *)
Lemma hito_row_inr (es : list Etapas.row) (id item : Z)
  (a b c d e f : Js.value) (r : Hitos.row) :
  hito_row es id item a b c d e f = inr r ->
  Hitos.id r = id /\ Hitos.item r = item
  /\ not_null "etapa_id" as_int (Sql.escape a) = inr (Hitos.etapa_id r)
  /\ not_null "fecha_inicio" as_date (Sql.escape b) = inr (Hitos.fecha_inicio r)
  /\ not_null "ubicacion" (as_varchar 255) (Sql.escape c)
     = inr (Hitos.ubicacion r)
  /\ nullable "fecha_finalizacion" as_date (Sql.escape d)
     = inr (Hitos.fecha_finalizacion r)
  /\ nullable "comentarios" as_text (Sql.escape e) = inr (Hitos.comentarios r)
  /\ nullable "ilustracion" (as_varchar 255) (Sql.escape f)
     = inr (Hitos.ilustracion r)
  /\ existsb (fun x => Etapas.id x =? Hitos.etapa_id r) es = true.
Proof.
  unfold hito_row, references.
  destruct (not_null "etapa_id" as_int (Sql.escape a)) as [?|x1]; [discriminate|].
  destruct (not_null "fecha_inicio" as_date (Sql.escape b)) as [?|x2];
    [discriminate|].
  destruct (not_null "ubicacion" (as_varchar 255) (Sql.escape c)) as [?|x3];
    [discriminate|].
  destruct (nullable "fecha_finalizacion" as_date (Sql.escape d)) as [?|x4];
    [discriminate|].
  destruct (nullable "comentarios" as_text (Sql.escape e)) as [?|x5];
    [discriminate|].
  destruct (nullable "ilustracion" (as_varchar 255) (Sql.escape f)) as [?|x6];
    [discriminate|].
  cbn [Sql.bind].
  destruct (existsb (fun x => Etapas.id x =? x1) es) eqn:Hfk; [|discriminate].
  cbn [Sql.bind]. intros [= <-]. cbn. auto 10.
Qed.

Lemma assign_replaced (es : list Etapas.row) (b : HitoBody.t)
  (old new : Hitos.row) :
  assign es (HitoBody.etapa_id b) (HitoBody.fecha_inicio b)
    (HitoBody.ubicacion b) (Js.or (HitoBody.fecha_finalizacion b) Js.Null)
    (HitoBody.comentarios b) (HitoBody.ilustracion b) old = inr new ->
  replaced b old new
  /\ existsb (fun x => Etapas.id x =? Hitos.etapa_id new) es = true.
Proof.
  unfold assign. intros H. apply hito_row_inr in H.
  destruct H as (Hid & Hitem & H1 & H2 & H3 & H4 & H5 & H6 & Hfk).
  split; [|exact Hfk].
  unfold replaced, identity. rewrite Hid, Hitem. auto 10.
Qed.

(** Row by row: an [UPDATE] that the store accepts reassigns the rows
    with the given id and keeps the others. *)
Lemma update_rows_Forall2 (f : Hitos.row -> Sql.result Hitos.row) (id : Z)
  (hs hs' : list Hitos.row) :
  update_rows f id hs = inr hs' ->
  Forall2 (fun old new =>
             if Hitos.id old =? id then f old = inr new else new = old)
          hs hs'.
Proof.
  revert hs'. induction hs as [|h hs IH]; simpl; intros hs'.
  - intros [= <-]. constructor.
  - destruct (Hitos.id h =? id) eqn:Hid.
    + destruct (f h) as [?|h'] eqn:Hf; [discriminate|]. cbn [Sql.bind].
      destruct (update_rows f id hs) as [?|hs''] eqn:Hrest; [discriminate|].
      cbn [Sql.bind]. intros [= <-]. constructor.
      * rewrite Hid. exact Hf.
      * now apply IH.
    + cbn [Sql.bind].
      destruct (update_rows f id hs) as [?|hs''] eqn:Hrest; [discriminate|].
      cbn [Sql.bind]. intros [= <-]. constructor.
      * now rewrite Hid.
      * now apply IH.
Qed.

(** What the store does with an accepted [UPDATE]. *)
Lemma exec_UPDATE_rows (a b c d e f : Js.value) (id : Z)
  (d0 d' : database) (r : rowset) :
  exec (UPDATE_hitos a b c d e f id) d0 = inr (r, d') ->
  etapas d' = etapas d0
  /\ Forall2 (fun old new =>
               if Hitos.id old =? id
               then assign (etapas_rows d0) a b c d e f old = inr new
               else new = old)
            (hitos_rows d0) (hitos_rows d').
Proof.
  cbn [exec]. unfold the_hitos, hitos_rows.
  destruct (hitos d0) as [th|]; [|discriminate]. cbn [Sql.bind].
  destruct (update_rows _ id (rows th)) as [?|hs] eqn:Hup; [discriminate|].
  cbn [Sql.bind]. intros [= _ <-]. cbn. split; [reflexivity|].
  now apply update_rows_Forall2.
Qed.

(** What the store does with the [UPDATE] of the program. *)
Lemma exec_UPDATE_hitos (b : HitoBody.t) (id : Z) (d d' : database)
  (r : rowset) :
  exec (UPDATE_hitos (HitoBody.etapa_id b) (HitoBody.fecha_inicio b)
          (HitoBody.ubicacion b)
          (Js.or (HitoBody.fecha_finalizacion b) Js.Null)
          (HitoBody.comentarios b) (HitoBody.ilustracion b) id) d
  = inr (r, d') ->
  etapas d' = etapas d
  /\ Forall2 (fun old new =>
               if Hitos.id old =? id
               then replaced b old new
                    /\ existsb (fun x => Etapas.id x =? Hitos.etapa_id new)
                               (etapas_rows d) = true
               else new = old)
            (hitos_rows d) (hitos_rows d').
Proof.
  intros Hexec. apply exec_UPDATE_rows in Hexec.
  destruct Hexec as [Het Hrows]. split; [exact Het|].
  eapply Forall2_impl; [|exact Hrows].
  intros old new. cbn. destruct (Hitos.id old =? id); [|auto].
  apply assign_replaced.
Qed.

Lemma Forall2_identity (P : Hitos.row -> Hitos.row -> Prop)
  (hs hs' : list Hitos.row) :
  (forall old new, P old new -> identity new = identity old) ->
  Forall2 P hs hs' -> map identity hs' = map identity hs.
Proof.
  intros HP H. induction H as [|old new hs hs' Hhead _ IH]; simpl.
  - reflexivity.
  - now rewrite (HP _ _ Hhead), IH.
Qed.

(** An [UPDATE] whose assignment is refused fails when it addresses a
    row. *)
Lemma update_rows_refused (f : Hitos.row -> Sql.result Hitos.row) (id : Z)
  (hs : list Hitos.row) :
  (forall h, exists err, f h = inl err) ->
  existsb (fun h => Hitos.id h =? id) hs = true ->
  exists err, update_rows f id hs = inl err.
Proof.
  intros Hf. induction hs as [|h hs IH]; simpl; [discriminate|].
  destruct (Hitos.id h =? id); simpl.
  - intros _. destruct (Hf h) as [err ->]. now exists err.
  - intros Hex. destruct (IH Hex) as [err ->]. now exists err.
Qed.





End MilestoneUpdate.

Section MilestoneUpdateClaims.
Context {E : engine}.


End MilestoneUpdateClaims.



(** ** Requests on an id that matches no row *)

Section AbsentId.
Context {E : engine}.

Lemma existsb_false_In {A} (f : A -> bool) (l : list A) :
  existsb f l = false -> forall x, In x l -> f x = false.
Proof.
  intros H x Hx. destruct (f x) eqn:Hf; [|reflexivity].
  rewrite <- H. symmetry. apply existsb_exists. now exists x.
Qed.

Lemma unreferenced_when_absent (id : Z) (d : database) :
  referential d -> no_etapa id d ->
  count_hitos id (hitos_rows d) = 0.
Proof.
  unfold referential, no_etapa. intros Hfk Habs.
  apply count_hitos_zero. intros h Hh Heq.
  rewrite forallb_forall in Hfk. specialize (Hfk h Hh).
  apply existsb_exists in Hfk. destruct Hfk as (e & He & Hid).
  apply Z.eqb_eq in Hid.
  pose proof (existsb_false_In _ _ Habs e He) as Hne. cbn in Hne.
  apply Z.eqb_neq in Hne. congruence.
Qed.

Lemma put_api_hitos_absent (id : Z) (b : HitoBody.t) (w : world) :
  serving w -> no_hito id (db w) ->
  fst (put_api_hitos id b w) = Normal {| status := 200; body := Json_success |}
  /\ db (snd (put_api_hitos id b w)) = db w.
Proof.
  intros [Hreach Hcreated] Habs.
  destruct (created_tables _ Hcreated) as (te & th & Hte & Hth).
  unfold put_api_hitos, try_catch, bind, pool_query.
  rewrite (round_trip_reachable _ _ Hreach).
  cbn [exec]. unfold the_hitos. rewrite Hth. cbn [Sql.bind].
  rewrite update_rows_absent.
  - cbn. rewrite table_eta. split; [reflexivity|].
    now apply with_hitos_same.
  - intros h Hh. apply Z.eqb_neq.
    apply (existsb_false_In _ _ Habs h).
    unfold hitos_rows. now rewrite Hth.
Qed.

Lemma delete_api_hitos_absent (id : Z) (w : world) :
  serving w -> no_hito id (db w) ->
  fst (delete_api_hitos id w)
    = Normal {| status := 200; body := Json_success |}
  /\ db (snd (delete_api_hitos id w)) = db w.
Proof.
  intros [Hreach Hcreated] Habs.
  destruct (created_tables _ Hcreated) as (te & th & Hte & Hth).
  unfold delete_api_hitos, try_catch, bind, pool_query.
  rewrite (round_trip_reachable _ _ Hreach).
  cbn [exec]. unfold the_hitos. rewrite Hth. cbn [Sql.bind].
  cbn. split; [reflexivity|].
  rewrite filter_all.
  - rewrite table_eta. now apply with_hitos_same.
  - intros h Hh. apply negb_true_iff.
    apply (existsb_false_In _ _ Habs h).
    unfold hitos_rows. now rewrite Hth.
Qed.

Lemma delete_api_etapas_absent (id : Z) (w : world) :
  serving w -> referential (db w) -> no_etapa id (db w) ->
  fst (delete_api_etapas id w)
    = Normal {| status := 200; body := Json_success |}
  /\ db (snd (delete_api_etapas id w)) = db w.
Proof.
  intros Hserving Hfk Habs.
  destruct (created_tables _ (proj2 Hserving)) as (te & th & Hte & Hth).
  rewrite (delete_api_etapas_unreferenced id w te Hserving Hte
             (unreferenced_when_absent id _ Hfk Habs)).
  cbn. split; [reflexivity|].
  rewrite filter_all.
  - rewrite table_eta. now apply with_etapas_same.
  - intros e He. apply negb_true_iff.
    apply (existsb_false_In _ _ Habs e).
    unfold etapas_rows. now rewrite Hte.
Qed.

(** C8. On a serving process whose milestones all refer to a stage, for
    every id that matches no existing row, the stage-delete, the
    milestone-update (whatever its body) and the milestone-delete
    endpoints answer 200 with the generic success response, and the
    database is as before. *)
Theorem absent_id_succeeds_silently (id : Z) (b : HitoBody.t) (w : world) :
  serving w -> referential (db w) ->
  (no_etapa id (db w) ->
     fst (delete_api_etapas id w)
       = Normal {| status := 200; body := Json_success |}
     /\ db (snd (delete_api_etapas id w)) = db w)
  /\ (no_hito id (db w) ->
     (fst (put_api_hitos id b w)
        = Normal {| status := 200; body := Json_success |}
      /\ db (snd (put_api_hitos id b w)) = db w)
     /\ (fst (delete_api_hitos id w)
           = Normal {| status := 200; body := Json_success |}
         /\ db (snd (delete_api_hitos id w)) = db w)).
Proof.
  intros Hserving Hfk. split.
  - now apply delete_api_etapas_absent.
  - intros Habs. split.
    + now apply put_api_hitos_absent.
    + now apply delete_api_hitos_absent.
Qed.

End AbsentId.

Lemma absent_id_succeeds_silently_witness :
  serving with_hito_1 /\ referential (db with_hito_1)
  /\ no_etapa 99 (db with_hito_1) /\ no_hito 99 (db with_hito_1)
  /\ fst (delete_api_etapas (E := strict) 99 with_hito_1)
     = Normal {| status := 200; body := Json_success |}
  /\ fst (put_api_hitos (E := strict) 99 only_location_and_completion
            with_hito_1)
     = Normal {| status := 200; body := Json_success |}
  /\ fst (delete_api_hitos (E := strict) 99 with_hito_1)
     = Normal {| status := 200; body := Json_success |}.
Proof.
  pose proof serving_with_hito_1 as H.
  assert (Hfk : referential (db with_hito_1)) by reflexivity.
  assert (He : no_etapa 99 (db with_hito_1)) by reflexivity.
  assert (Hh : no_hito 99 (db with_hito_1)) by reflexivity.
  destruct (absent_id_succeeds_silently (E := strict) 99
              only_location_and_completion with_hito_1 H Hfk)
    as [Hetapa Hhito].
  destruct (Hetapa He) as [H1 _].
  destruct (Hhito Hh) as [[H2 _] [H3 _]].
  exact (conj H (conj Hfk (conj He (conj Hh (conj H1 (conj H2 H3)))))).
Defined.

(** ** The listing of milestones *)

Lemma In_insert_by {R} (key : R -> Z) (x y : R) (l : list R) :
  In x (insert_by key y l) <-> x = y \/ In x l.
Proof.
  induction l as [|z l IH]; simpl.
  - intuition.
  - destruct (key y <=? key z); simpl; rewrite ?IH; intuition.
Qed.

Lemma In_order_by {R} (key : R -> Z) (x : R) (l : list R) :
  In x (order_by key l) <-> In x l.
Proof.
  induction l as [|y l IH]; simpl; [tauto|].
  rewrite In_insert_by, IH. intuition.
Qed.

Lemma In_join (j : Hitos.joined) (hs : list Hitos.row)
  (es : list Etapas.row) :
  In j (join hs es) <->
  exists h e,
    In h hs /\ In e es /\ Hitos.etapa_id h = Etapas.id e
    /\ j = {| Hitos.h := h; Hitos.etapa := Etapas.nombre e;
              Hitos.etapa_color := Etapas.color e |}.
Proof.
  unfold join. rewrite in_flat_map. split.
  - intros (h & Hh & Hj). apply in_map_iff in Hj.
    destruct Hj as (e & <- & He). apply filter_In in He.
    destruct He as [He Heq]. apply Z.eqb_eq in Heq.
    now exists h, e.
  - intros (h & e & Hh & He & Heq & ->).
    exists h. split; [exact Hh|].
    apply in_map_iff. exists e. split; [reflexivity|].
    apply filter_In. split; [exact He|]. now apply Z.eqb_eq.
Qed.


Lemma Forall2_In_r {A B} (P : A -> B -> Prop) (l : list A) (l' : list B)
  (y : B) :
  Forall2 P l l' -> In y l' -> exists x, In x l /\ P x y.
Proof.
  induction 1 as [|a b l l' Hab _ IH]; simpl; [intros []|].
  intros [<-|Hy].
  - exists a. auto.
  - destruct (IH Hy) as (x & Hx & Hxy). exists x. auto.
Qed.

Section Listing.
Context {E : engine}.

(** On a serving process the listing is the join of the two tables,
    ordered by [item]. *)
Lemma listing_serving (w : world) :
  serving w ->
  listing w =
    order_by (fun j => Hitos.item (Hitos.h j))
             (join (hitos_rows (db w)) (etapas_rows (db w))).
Proof.
  intros [Hreach Hcreated].
  destruct (created_tables _ Hcreated) as (te & th & Hte & Hth).
  unfold listing, get_api_hitos, try_catch, bind, pool_query.
  rewrite (round_trip_reachable _ _ Hreach).
  cbn [exec]. unfold the_hitos, the_etapas, hitos_rows, etapas_rows.
  rewrite Hth, Hte. reflexivity.
Qed.

(** An update that was answered 200 went through the store. *)
Lemma put_api_hitos_200 (id : Z) (b : HitoBody.t) (w : world) :
  fst (put_api_hitos id b w)
    = Normal {| status := 200; body := Json_success |} ->
  exists r d,
    exec (UPDATE_hitos (HitoBody.etapa_id b) (HitoBody.fecha_inicio b)
            (HitoBody.ubicacion b)
            (Js.or (HitoBody.fecha_finalizacion b) Js.Null)
            (HitoBody.comentarios b) (HitoBody.ilustracion b) id) (db w)
      = inr (r, d)
    /\ outages (snd (put_api_hitos id b w)) = tl (outages w)
    /\ db (snd (put_api_hitos id b w)) = d.
Proof.
  unfold put_api_hitos, try_catch, bind, pool_query.
  match goal with |- context [round_trip ?s w] => set (s0 := s) end.
  destruct (round_trip_cases s0 w) as [[e ->] | (r & d & Hexec & ->)].
  - cbn. discriminate.
  - cbn. intros _. now exists r, d.
Qed.

Lemma exec_created (s : stmt) (d d' : database) (r : rowset) :
  exec s d = inr (r, d') -> created d -> created d'.
Proof.
  unfold created. intros Hexec [He Hh].
  destruct (etapas d) as [te|] eqn:Hte; [|congruence].
  destruct (hitos d) as [th|] eqn:Hth; [|congruence].
  destruct s; cbn [exec] in Hexec; unfold the_etapas, the_hitos in Hexec;
    rewrite ?Hte, ?Hth in Hexec; cbn [Sql.bind] in Hexec;
    repeat match type of Hexec with
      | context [Sql.bind ?x _] =>
          destruct x; cbn [Sql.bind] in Hexec; [discriminate|]
      | context [if ?c then _ else _] => destruct c
      end;
    try discriminate;
    injection Hexec as _ <-; cbn; rewrite ?Hte, ?Hth; split; discriminate.
Qed.

End Listing.

Section UpdateThenList.
Context {E : engine}.


End UpdateThenList.



(** ** The bootstrapper and its connection *)

Section Bootstrap.
Context {E : engine}.

(** The three ways [initDB] ends: it succeeded and gave the connection
    back; it could not take a connection; or a statement threw after the
    connection was taken, and then the connection is still leased. *)
Lemma initDB_outcomes (w : world) :
  let w' := snd (initDB w) in
  (console w' = console w ++ ["Base de datos inicializada correctamente"]
   /\ leased w' = leased w)
  \/ (console w' = console w ++ ["Error al inicializar la base de datos:"]
      /\ hd false (outages w) = true
      /\ leased w' = leased w)
  \/ (console w' = console w ++ ["Error al inicializar la base de datos:"]
      /\ hd false (outages w) = false
      /\ leased w' = S (leased w)).
Proof.
  unfold initDB, try_catch, bind, pool_getConnection, connection_query,
    connection_release, console_log, console_error, ret, round_trip.
  destruct (outages w) as [|[|] o1]; cbn [hd tl fst snd];
    [ | right; left; cbn; auto | ].
  all: repeat
    (cbn [fst snd db outages leased issued console sent tl];
     match goal with
     | |- context [match exec ?s ?d with _ => _ end] =>
         destruct (exec s d) as [?|[? ?]]
     | |- context [match ?l with [] => _ | _ => _ end] =>
         destruct l as [|[|] ?]
     | |- context [if ?c then _ else _] => destruct c
     end).
  all: cbn; auto.
Qed.

(** A bootstrap whose first statement meets an outage. *)
Lemma initDB_first_statement_fails (w : world) (rest : list bool) :
  outages w = false :: true :: rest ->
  leased (snd (initDB w)) = S (leased w).
Proof.
  intros Hout.
  unfold initDB, try_catch, bind, pool_getConnection, connection_query,
    console_error, console_log, round_trip.
  rewrite Hout. cbn. reflexivity.
Qed.

End Bootstrap.

Section BootstrapClaim.
Context {E : engine}.

(** C4.  The bootstrapper does not release the connection on a path
    where a query fails: whenever [pool.getConnection()] succeeded and
    the bootstrap ended in its [catch] (a table creation, the seed check
    or the seed insert threw), the connection taken from the pool is
    still leased when [initDB] returns. *)
Theorem initDB_leaks_connection_on_failure (w : world) :
  hd false (outages w) = false ->
  console (snd (initDB w))
    = console w ++ ["Error al inicializar la base de datos:"] ->
  leased (snd (initDB w)) = S (leased w).
Proof.
  intros Htaken Hcaught.
  destruct (initDB_outcomes w) as [[Hok _] | [(_ & Hout & _) | (_ & _ & Hl)]].
  - rewrite Hok in Hcaught. apply app_inv_head in Hcaught. discriminate.
  - rewrite Hout in Htaken. discriminate.
  - exact Hl.
Qed.

End BootstrapClaim.

Lemma initDB_leaks_connection_on_failure_witness :
  let w := snd (initDB (E := strict) (startup [false; true])) in
  let w4 :=
    snd (initDB (E := strict) (startup [false; false; false; false; true])) in
  issued w = [CREATE_TABLE_etapas]
  /\ leased w = 1%nat
  /\ issued w4 = [CREATE_TABLE_etapas; CREATE_TABLE_hitos; SELECT_etapas;
                  INSERT_default_etapas]
  /\ leased w4 = 1%nat.
Proof.
  refine (conj eq_refl (conj _ (conj eq_refl _))).
  - exact (initDB_leaks_connection_on_failure (E := strict)
             (startup [false; true]) eq_refl eq_refl).
  - exact (initDB_leaks_connection_on_failure (E := strict)
             (startup [false; false; false; false; true]) eq_refl eq_refl).
Defined.

(** ** The upload filter *)

Lemma prefix_app (n h : string) :
  String.prefix n h = true <-> exists post, h = (n ++ post)%string.
Proof.
  revert h. induction n as [|a n IH]; intros h; simpl.
  - split; [intros _; now exists h|]. now destruct h.
  - destruct h as [|b h]; simpl.
    + split; [discriminate|intros [post Hpost]; discriminate].
    + destruct (ascii_dec a b) as [->|Hne].
      * rewrite IH. split; intros [post Hpost]; exists post.
        -- now rewrite Hpost.
        -- now injection Hpost.
      * split; [discriminate|].
        intros [post Hpost]. injection Hpost as Hab _. congruence.
Qed.

Lemma includes_app (n h : string) :
  includes n h = true <-> exists pre post, h = (pre ++ n ++ post)%string.
Proof.
  induction h as [|b h IH]; simpl.
  - rewrite orb_false_r. split.
    + intros Hp. exists "". now apply prefix_app.
    + intros (pre & post & Heq). destruct pre as [|c pre]; [|discriminate].
      destruct n; [reflexivity|discriminate].
  - rewrite orb_true_iff, IH. split.
    + intros [Hp | (pre & post & ->)].
      * exists "". now apply (prefix_app n (String b h)).
      * now exists (String b pre), post.
    + intros (pre & post & Heq). destruct pre as [|c pre].
      * left. apply (prefix_app n (String b h)). now exists post.
      * right. injection Heq as _ ->. now exists pre, post.
Qed.

(** The pattern test is occurrence of an alternative. *)
Lemma filetypes_test_matches (s : string) :
  filetypes_test s = true <-> matches_filetypes s.
Proof.
  unfold filetypes_test, matches_filetypes.
  rewrite existsb_exists. split.
  - intros (alt & Hin & Hinc). apply includes_app in Hinc.
    destruct Hinc as (pre & post & ->). now exists alt, pre, post.
  - intros (alt & pre & post & Hin & ->). exists alt. split; [exact Hin|].
    apply includes_app. now exists pre, post.
Qed.

(** [path.extname] on the examples of its documentation. *)
Example extname_documented :
  map extname
      ["index.html"; "index.coffee.md"; "index."; "index"; ".index";
       ".index.md"]
  = [".html"; ".md"; "."; ""; ""; ".md"].
Proof. vm_compute. reflexivity. Qed.

Example extname_of_a_path :
  map extname ["fotos/obra.v2/plano"; "fotos/obra.PNG"; "fotos/.."; ""]
  = [""; ".PNG"; ""; ""].
Proof. vm_compute. reflexivity. Qed.

Example filetypes_test_examples :
  map filetypes_test ["image/png"; "image/jpeg"; ".jpg"; "application/pdf"; ""]
  = [true; true; true; false; false].
Proof. vm_compute. reflexivity. Qed.

Lemma fileFilter_inr (file : File.t) :
  fileFilter file = inr true <->
  matches_filetypes (File.mimetype file)
  /\ matches_filetypes (toLowerCase (extname (File.originalname file))).
Proof.
  unfold fileFilter. rewrite <- !filetypes_test_matches.
  destruct (filetypes_test (File.mimetype file));
    destruct (filetypes_test _); cbn; intuition discriminate.
Qed.

Lemma fileFilter_cases (file : File.t) :
  fileFilter file = inr true
  \/ fileFilter file
     = inl (Filter_error "Solo se permiten imágenes (jpeg, jpg, png, gif)").
Proof.
  unfold fileFilter. destruct (_ && _)%bool; auto.
Qed.

(** ** The upload middleware *)

Section Upload.
Context {P : multipart}.

(** Parts without a file name are passed over. *)
Lemma multer_files_skip (now : Z) (n : nat) (pre ps : list Part.t)
  (file : option Stored.t) :
  Forall (fun p => filename_of (Part.filename p) = "") pre ->
  multer_files now n (pre ++ ps) file = multer_files now n ps file.
Proof.
  induction 1 as [|p pre Hp _ IH]; [reflexivity|].
  cbn [app multer_files file_of File.originalname].
  rewrite Hp. exact IH.
Qed.

(** The middleware on a request that carries one part. *)
Lemma upload_single_one (r : upload_request) (p : Part.t) :
  parts r = [p] ->
  upload_single r
  = if String.eqb (filename_of (Part.filename p)) "" then inr None
    else if negb (String.eqb (Part.name p) "imagen")
    then inl LIMIT_UNEXPECTED_FILE
    else
      match fileFilter (file_of p) with
      | inl err => inl err
      | inr false => inr None
      | inr true =>
          if Part.size p <? limits_fileSize
          then inr (Some {| Stored.originalname :=
                              filename_of (Part.filename p);
                            Stored.mimetype :=
                              mimeType_of (Part.content_type p);
                            Stored.destination := storage_destination;
                            Stored.filename :=
                              storage_filename (now r) (file_of p);
                            Stored.size := Part.size p |})
          else inl LIMIT_FILE_SIZE
      end.
Proof.
  intros Hp. unfold upload_single. rewrite Hp.
  cbn [multer_files file_of File.originalname File.mimetype File.size
       Nat.eqb Nat.sub].
  rewrite orb_false_r.
  destruct (String.eqb _ ""); [reflexivity|].
  destruct (negb _); [reflexivity|].
  destruct (fileFilter _) as [?|[|]]; reflexivity.
Qed.

(** The first file of the request decides when it is refused. *)
Lemma upload_single_refused (r : upload_request) (pre rest : list Part.t)
  (p : Part.t) :
  parts r = pre ++ p :: rest ->
  Forall (fun q => filename_of (Part.filename q) = "") pre ->
  filename_of (Part.filename p) <> "" ->
  Part.name p <> "imagen"
  \/ Part.size p >= limits_fileSize
  \/ fileFilter (file_of p) <> inr true ->
  exists err, upload_single r = inl err.
Proof.
  intros Hparts Hpre Hname Hbad. unfold upload_single.
  rewrite Hparts, multer_files_skip by exact Hpre.
  cbn [multer_files file_of File.originalname File.mimetype File.size
       Nat.eqb Nat.sub].
  rewrite orb_false_r.
  destruct (String.eqb_spec (filename_of (Part.filename p)) "") as [|_];
    [contradiction|].
  destruct (String.eqb_spec (Part.name p) "imagen") as [Hfield|_];
    cbn [negb]; [|eauto].
  fold (file_of p).
  destruct (fileFilter_cases (file_of p)) as [Hok | ->]; [|eauto].
  rewrite Hok. cbn [file_of File.size].
  destruct (Z.ltb_spec (Part.size p) limits_fileSize); [|eauto].
  exfalso. destruct Hbad as [? | [? | ?]]; [contradiction | lia | contradiction].
Qed.

Lemma extname_empty : toLowerCase (extname "") = "".
Proof. vm_compute. reflexivity. Qed.

Lemma no_match_in_empty : ~ matches_filetypes "".
Proof. intros H. apply filetypes_test_matches in H. discriminate. Qed.

(** C5, as amended.  For every upload request carrying one file, the
    file is accepted if and only if it is sent under the field
    [imagen], its size is below 5 MiB (a file of exactly 5 MiB is
    refused), the MIME type that the multipart parser reports for it
    matches one of jpeg, jpg, png, gif, and the extension, in lower
    case, of the file name that the parser reports matches one of them;
    the two pattern tests are separate conjuncts, each on its own
    string. *)
Theorem upload_accepts_file_iff (r : upload_request) (p : Part.t) :
  parts r = [p] ->
  (accepted r = true <->
     Part.name p = "imagen"
     /\ Part.size p < 5 * 1024 * 1024
     /\ matches_filetypes (mimeType_of (Part.content_type p))
     /\ matches_filetypes
          (toLowerCase (extname (filename_of (Part.filename p))))).
Proof.
  intros Hp. unfold accepted. rewrite (upload_single_one r p Hp).
  destruct (String.eqb_spec (filename_of (Part.filename p)) "")
    as [Hempty|Hname].
  - split; [discriminate|]. intros (_ & _ & _ & Hext).
    rewrite Hempty, extname_empty in Hext. now apply no_match_in_empty in Hext.
  - destruct (String.eqb_spec (Part.name p) "imagen") as [Hfield|Hfield];
      cbn [negb]; [|split; [discriminate|tauto]].
    change (matches_filetypes (mimeType_of (Part.content_type p)))
      with (matches_filetypes (File.mimetype (file_of p))).
    change (filename_of (Part.filename p))
      with (File.originalname (file_of p)).
    rewrite <- fileFilter_inr.
    destruct (fileFilter_cases (file_of p)) as [-> | ->].
    + change limits_fileSize with (5 * 1024 * 1024).
      destruct (Z.ltb_spec (Part.size p) (5 * 1024 * 1024)).
      * tauto.
      * split; [discriminate|]. lia.
    + split; [discriminate|]. intros (_ & _ & Hf). discriminate.
Qed.

(** ** The upload endpoint *)

(** C6, as amended.  The upload endpoint answers 400 when the request
    carries no file at all; it answers 500 when its first file is sent
    under another field than [imagen], has 5 MiB or more, or fails the
    type validation (on the MIME type and the file name that the parser
    reports); and when the one file of the request is accepted it
    answers 200 with a JSON object whose url is [http://], the host,
    the static path [/uploads/] and the stored file name, which is the
    upload timestamp followed by the extension of the file name. *)
Theorem upload_answers (r : upload_request) :
  (Forall (fun p => filename_of (Part.filename p) = "") (parts r) ->
     post_api_upload r
       = {| status := 400;
            body := Json_error "No se ha enviado ninguna imagen" |})
  /\ (forall pre p rest,
        parts r = pre ++ p :: rest ->
        Forall (fun q => filename_of (Part.filename q) = "") pre ->
        filename_of (Part.filename p) <> "" ->
        Part.name p <> "imagen"
        \/ Part.size p >= 5 * 1024 * 1024
        \/ ~ matches_filetypes (mimeType_of (Part.content_type p))
        \/ ~ matches_filetypes
               (toLowerCase (extname (filename_of (Part.filename p)))) ->
        post_api_upload r = {| status := 500; body := Error_page |})
  /\ (forall p h,
        parts r = [p] ->
        accepted r = true ->
        host r = Some h ->
        post_api_upload r
          = {| status := 200;
               body := Json_url
                 ("http://" ++ h ++ "/uploads/"
                  ++ decimal (now r)
                  ++ extname (filename_of (Part.filename p)))%string |}).
Proof.
  split; [|split].
  - intros Hnone. unfold post_api_upload, upload_single.
    rewrite <- (app_nil_r (parts r)).
    now rewrite multer_files_skip by exact Hnone.
  - intros pre p rest Hparts Hpre Hname Hbad.
    destruct (upload_single_refused r pre rest p Hparts Hpre Hname)
      as [err Herr].
    + destruct Hbad as [Hfield | [Hsize | Htype]]; [now left | |].
      * right. left. exact Hsize.
      * right. right. intros Hok. apply fileFilter_inr in Hok.
        cbn [file_of File.mimetype File.originalname] in Hok. tauto.
    + unfold post_api_upload. now rewrite Herr.
  - intros p h Hp Hacc Hhost.
    unfold accepted in Hacc. unfold post_api_upload.
    rewrite (upload_single_one r p Hp) in *.
    destruct (String.eqb _ ""); [discriminate|].
    destruct (negb _); [discriminate|].
    destruct (fileFilter _) as [?|[|]]; try discriminate.
    destruct (_ <? _); [|discriminate].
    cbn. unfold storage_filename. now rewrite Hhost.
Qed.

(** Every answer of the upload is one of three. *)
Lemma multer_files_status (r : upload_request) (n : nat) (ps : list Part.t)
  (file : option Stored.t) :
  In (status match multer_files (now r) n ps file with
             | inl err => {| status := 500; body := Error_page |}
             | inr f => upload_handler r f
             end) [200; 400; 500].
Proof.
  revert n file. induction ps as [|p ps IH]; intros n file.
  - destruct file; cbn; auto.
  - cbn [multer_files].
    destruct (String.eqb _ ""); [apply IH|].
    destruct (_ || _)%bool; [cbn; auto|].
    destruct (fileFilter _) as [?|[|]]; [cbn; auto| |apply IH].
    destruct (_ <? _); [apply IH|cbn; auto].
Qed.

Lemma post_api_upload_status (r : upload_request) :
  In (status (post_api_upload r)) [200; 400; 500].
Proof. apply multer_files_status. Qed.

End Upload.

Lemma upload_accepts_file_iff_witness :
  parts photo
    = [{| Part.name := "imagen"; Part.filename := "obra.PNG";
          Part.content_type := "image/png"; Part.size := 2 * 1024 * 1024 |}]
  /\ accepted photo = true
  /\ matches_filetypes "image/png"
  /\ matches_filetypes ".png".
Proof.
  split; [reflexivity|].
  pose proof (upload_accepts_file_iff (P := busboy) photo _ eq_refl)
    as [Hto _].
  split; [vm_compute; reflexivity|].
  destruct (Hto ltac:(vm_compute; reflexivity)) as (_ & _ & Hmime & Hext).
  split; [exact Hmime | exact Hext].
Defined.

(** C5, the claim as stated fails, on three uploads of [obra.png]
    under [imagen].  The first has exactly 5 MiB, the type
    [image/png] and the extension [.png], and is refused.  The second
    declares the type [IMAGE/PNG], which matches no alternative of the
    pattern, and is accepted: the parser reports the type in lower
    case.  The third declares the type [png], which matches, and is
    refused: the parser reports [text/plain] for it. *)
Lemma upload_is_not_decided_by_the_declared_values :
  (5 * 1024 * 1024 <= 5 * 1024 * 1024
   /\ filetypes_test "image/png" = true
   /\ filetypes_test (toLowerCase (extname "obra.png")) = true
   /\ accepted photo_5MiB = false
   /\ post_api_upload photo_5MiB = {| status := 500; body := Error_page |})
  /\ (filetypes_test "IMAGE/PNG" = false
      /\ accepted photo_IMAGE_PNG = true
      /\ post_api_upload photo_IMAGE_PNG
         = {| status := 200;
              body := Json_url
                "http://hitos.example.org/uploads/1700000000000.png" |})
  /\ (filetypes_test "png" = true
      /\ filetypes_test (toLowerCase (extname "obra.png")) = true
      /\ accepted photo_typed_png = false
      /\ post_api_upload photo_typed_png
         = {| status := 500; body := Error_page |}).
Proof.
  vm_compute. split; [|split].
  - split; [discriminate|]. repeat split.
  - repeat split.
  - repeat split.
Qed.

Lemma upload_answers_witness :
  post_api_upload no_photo
    = {| status := 400; body := Json_error "No se ha enviado ninguna imagen" |}
  /\ post_api_upload photo_as_foto = {| status := 500; body := Error_page |}
  /\ post_api_upload photo_as_pdf = {| status := 500; body := Error_page |}
  /\ post_api_upload photo_6MiB = {| status := 500; body := Error_page |}
  /\ post_api_upload photo_5MiB = {| status := 500; body := Error_page |}
  /\ post_api_upload photo
     = {| status := 200;
          body := Json_url
                    "http://hitos.example.org/uploads/1700000000000.PNG" |}.
Proof.
  split; [|split; [|split; [|split; [|split]]]].
  - apply (proj1 (upload_answers (P := busboy) no_photo)). constructor.
  - apply (proj1 (proj2 (upload_answers (P := busboy) photo_as_foto))
             [] _ [] eq_refl (Forall_nil _)).
    + vm_compute. discriminate.
    + left. vm_compute. discriminate.
  - apply (proj1 (proj2 (upload_answers (P := busboy) photo_as_pdf))
             [] _ [] eq_refl (Forall_nil _)).
    + vm_compute. discriminate.
    + right. right. left. intros Hmime.
      apply filetypes_test_matches in Hmime. vm_compute in Hmime.
      discriminate.
  - apply (proj1 (proj2 (upload_answers (P := busboy) photo_6MiB))
             [] _ [] eq_refl (Forall_nil _)).
    + vm_compute. discriminate.
    + right. left. vm_compute. discriminate.
  - apply (proj1 (proj2 (upload_answers (P := busboy) photo_5MiB))
             [] _ [] eq_refl (Forall_nil _)).
    + vm_compute. discriminate.
    + right. left. vm_compute. discriminate.
  - apply (proj2 (proj2 (upload_answers (P := busboy) photo))
             _ "hitos.example.org" eq_refl).
    + vm_compute. reflexivity.
    + reflexivity.
Defined.

(** C6, the claim as stated fails.  The request [photo_as_foto] sends
    its file under the field [foto]: the field [imagen] carries no
    file, and the answer is 500, not 400. *)
Lemma upload_under_another_field_is_answered_500 :
  imagen photo_as_foto = None
  /\ status (post_api_upload photo_as_foto) = 500
  /\ status (post_api_upload photo_as_foto) <> 400.
Proof. vm_compute. repeat split. discriminate. Qed.

(** The parser of the examples on a few headers and names. *)
Example partType_examples :
  map partType
      ["image/png"; "IMAGE/PNG"; "Image/Jpeg; charset=utf-8"; "png"; ""]
  = ["image/png"; "image/png"; "image/jpeg"; "text/plain"; "text/plain"].
Proof. vm_compute. reflexivity. Qed.

Example basename_examples :
  map basename
      ["obra.png"; "fotos/obra.png"; "fotos/";
       ("a.png" ++ String backslash "b")%string]
  = ["obra.png"; "obra.png"; ""; "b"].
Proof. vm_compute. reflexivity. Qed.

(** C9. The filter's pattern has no anchor: the file [anim.apngx],
    declared [image/x-apngx], has an extension that is none of [.jpeg],
    [.jpg], [.png], [.gif] and a MIME type that is none of the image
    types, both merely contain [png], and the filter accepts it, so that
    the upload is stored and answered 200. *)
Theorem filter_accepts_token_inside_extension :
  exists file,
    imagen apngx = Some file
    /\ extname (File.originalname file) = ".apngx"
    /\ ~ In (toLowerCase (extname (File.originalname file)))
            [".jpeg"; ".jpg"; ".png"; ".gif"]
    /\ ~ In (File.mimetype file)
            ["image/jpeg"; "image/jpg"; "image/png"; "image/gif"]
    /\ includes "png" (toLowerCase (extname (File.originalname file))) = true
    /\ includes "png" (File.mimetype file) = true
    /\ fileFilter file = inr true
    /\ post_api_upload apngx
       = {| status := 200;
            body := Json_url
                      "http://localhost:3000/uploads/1700000000000.apngx" |}.
Proof.
  exists {| File.originalname := "anim.apngx";
            File.mimetype := "image/x-apngx";
            File.size := 2 * 1024 * 1024 |}.
  split; [vm_compute; reflexivity|].
  cbn [File.originalname File.mimetype].
  split; [vm_compute; reflexivity|].
  split; [vm_compute; intuition discriminate|].
  split; [vm_compute; intuition discriminate|].
  vm_compute. repeat split.
Qed.

(** ** Stage creation *)

Section StageCreation.
Context {E : engine}.

(** A stage body that the store accepts: 201 with the generated id and
    the body's name and colour, and one more row. *)
Lemma post_api_etapas_created (b : EtapaBody.t) (w : world)
  (te : table Etapas.row) (n c : string) :
  reachable w ->
  etapas (db w) = Some te ->
  not_null "nombre" (as_varchar 100) (Sql.escape (EtapaBody.nombre b)) = inr n ->
  not_null "color" (as_varchar 7) (Sql.escape (EtapaBody.color b)) = inr c ->
  fst (post_api_etapas b w)
    = Normal {| status := 201;
                body := Json_etapa (auto_increment te) (EtapaBody.nombre b)
                          (EtapaBody.color b) |}
  /\ etapas_rows (db (snd (post_api_etapas b w)))
     = etapas_rows (db w)
       ++ [ {| Etapas.id := auto_increment te; Etapas.nombre := n;
               Etapas.color := c |} ].
Proof.
  intros Hreach Hte Hn Hc.
  unfold post_api_etapas, try_catch, bind, pool_query.
  rewrite (round_trip_reachable _ _ Hreach).
  cbn [exec]. unfold the_etapas. rewrite Hte. cbn [Sql.bind].
  rewrite Hn. cbn [Sql.bind]. rewrite Hc. cbn.
  unfold etapas_rows. cbn. now rewrite Hte.
Qed.

(** C7.  The schema gives [color] the default [#4f46e5], but the
    endpoint names the column in its [INSERT] and binds the body's
    value: for every stage-create request whose body omits [color] the
    statement carries [NULL] for a [NOT NULL] column, the endpoint
    answers 500 and no stage is created. *)
Theorem create_stage_without_color_fails (b : EtapaBody.t) (w : world) :
  EtapaBody.color b = Js.Undefined ->
  fst (post_api_etapas b w)
    = Normal {| status := 500; body := Json_error "Error al crear etapa" |}
  /\ issued (snd (post_api_etapas b w))
     = issued w ++ [INSERT_etapas (EtapaBody.nombre b) Js.Undefined]
  /\ db (snd (post_api_etapas b w)) = db w.
Proof.
  intros Hcolor.
  unfold post_api_etapas, try_catch, bind, pool_query. rewrite Hcolor.
  match goal with |- context [round_trip ?s w] => set (s0 := s) end.
  destruct (round_trip_cases s0 w) as [[e ->] | (r & d & Hexec & _)].
  - cbn. auto.
  - exfalso. unfold s0 in Hexec. cbn [exec] in Hexec.
    destruct (the_etapas (db w)) as [?|te]; [discriminate|].
    cbn [Sql.bind] in Hexec.
    destruct (not_null "nombre" _ _) as [?|n]; [discriminate|].
    cbn in Hexec. discriminate.
Qed.

End StageCreation.

Lemma create_stage_without_color_fails_witness :
  EtapaBody.color etapa_sin_color = Js.Undefined
  /\ fst (post_api_etapas (E := strict) etapa_sin_color bootstrapped)
     = Normal {| status := 500; body := Json_error "Error al crear etapa" |}
  /\ map Etapas.color
       (etapas_rows
          (db (snd (post_api_etapas (E := strict) etapa_sin_color
                      bootstrapped))))
     = ["#4f46e5"; "#059669"; "#b91c1c"; "#d97706"].
Proof.
  split; [reflexivity|].
  destruct (create_stage_without_color_fails (E := strict) etapa_sin_color
              bootstrapped eq_refl) as (H500 & _ & Hdb).
  split; [exact H500|].
  rewrite Hdb. reflexivity.
Defined.

(** ** Optional fields left out of a milestone body *)

Section OmittedFields.
Context {E : engine}.

Lemma escape_null_if_undefined (v : Js.value) :
  Sql.escape (null_if_undefined v) = Sql.escape v.
Proof. now destruct v. Qed.

Lemma nullable_undefined {A} (column : string)
  (conv : Sql.literal -> option A) (x : option A) :
  nullable column conv (Sql.escape Js.Undefined) = inr x -> x = None.
Proof. cbn. now intros [= <-]. Qed.

Lemma hito_row_null (es : list Etapas.row) (id item : Z)
  (a b c d e f : Js.value) :
  hito_row es id item a b c d (null_if_undefined e) (null_if_undefined f)
  = hito_row es id item a b c d e f.
Proof. unfold hito_row. now rewrite !escape_null_if_undefined. Qed.

Lemma update_rows_ext (f g : Hitos.row -> Sql.result Hitos.row) (id : Z)
  (hs : list Hitos.row) :
  (forall h, f h = g h) -> update_rows f id hs = update_rows g id hs.
Proof.
  intros Hfg. induction hs as [|h hs IH]; simpl; [reflexivity|].
  now rewrite Hfg, IH.
Qed.

(** Two statements that the store executes alike are answered alike. *)
Lemma round_trip_same_exec (s s' : stmt) (w : world) :
  exec s (db w) = exec s' (db w) ->
  fst (round_trip s w) = fst (round_trip s' w)
  /\ db (snd (round_trip s w)) = db (snd (round_trip s' w)).
Proof.
  intros Hexec. unfold round_trip. rewrite Hexec.
  destruct (outages w) as [|[|] rest]; cbn; auto;
    destruct (exec s' (db w)) as [e|[r d]]; cbn; auto.
Qed.

Lemma post_api_hitos_step (b : HitoBody.t) (w : world) :
  let s := INSERT_hitos (HitoBody.item b) (HitoBody.etapa_id b)
             (HitoBody.fecha_inicio b) (HitoBody.ubicacion b)
             (Js.or (HitoBody.fecha_finalizacion b) Js.Null)
             (HitoBody.comentarios b) (HitoBody.ilustracion b) in
  (fst (post_api_hitos b w)
     = match fst (round_trip s w) with
       | Normal r =>
           Normal {| status := 201; body := Json_id_success (insertId_of r) |}
       | Abrupt _ =>
           Normal {| status := 500; body := Json_error "Error al crear hito" |}
       end)
  /\ db (snd (post_api_hitos b w)) = db (snd (round_trip s w))
  /\ issued (snd (post_api_hitos b w)) = issued w ++ [s].
Proof.
  intros s. unfold post_api_hitos, try_catch, bind, pool_query. fold s.
  pose proof (round_trip_issued s w) as Hissued.
  destruct (round_trip s w) as [[r|e] w1]; cbn in *; auto.
Qed.

Lemma put_api_hitos_step (id : Z) (b : HitoBody.t) (w : world) :
  let s := UPDATE_hitos (HitoBody.etapa_id b) (HitoBody.fecha_inicio b)
             (HitoBody.ubicacion b)
             (Js.or (HitoBody.fecha_finalizacion b) Js.Null)
             (HitoBody.comentarios b) (HitoBody.ilustracion b) id in
  (fst (put_api_hitos id b w)
     = match fst (round_trip s w) with
       | Normal r => Normal {| status := 200; body := Json_success |}
       | Abrupt _ =>
           Normal {| status := 500;
                     body := Json_error "Error al actualizar hito" |}
       end)
  /\ db (snd (put_api_hitos id b w)) = db (snd (round_trip s w))
  /\ issued (snd (put_api_hitos id b w)) = issued w ++ [s].
Proof.
  intros s. unfold put_api_hitos, try_catch, bind, pool_query. fold s.
  pose proof (round_trip_issued s w) as Hissued.
  destruct (round_trip s w) as [[r|e] w1]; cbn in *; auto.
Qed.

(** What the store does with the [INSERT] of the program. *)
Lemma exec_INSERT_hitos (a b c d e f g : Js.value) (d0 d' : database)
  (r : rowset) :
  exec (INSERT_hitos a b c d e f g) d0 = inr (r, d') ->
  exists row,
    hitos_rows d' = hitos_rows d0 ++ [row]
    /\ nullable "comentarios" as_text (Sql.escape f)
       = inr (Hitos.comentarios row)
    /\ nullable "ilustracion" (as_varchar 255) (Sql.escape g)
       = inr (Hitos.ilustracion row).
Proof.
  cbn [exec]. unfold the_hitos, hitos_rows.
  destruct (hitos d0) as [th|]; [|discriminate]. cbn [Sql.bind].
  destruct (not_null "item" as_int (Sql.escape a)) as [?|it]; [discriminate|].
  cbn [Sql.bind].
  destruct (hito_row _ _ _ _ _ _ _ _ _) as [?|row] eqn:Hrow; [discriminate|].
  cbn [Sql.bind]. intros [= _ <-]. cbn.
  apply hito_row_inr in Hrow. exists row. tauto.
Qed.

End OmittedFields.

Section OmittedFieldsClaim.
Context {E : engine}.

Lemma exec_null_for_omitted (id : Z) (b : HitoBody.t) (d : database) :
  let n := null_for_omitted b in
  exec (INSERT_hitos (HitoBody.item b) (HitoBody.etapa_id b)
          (HitoBody.fecha_inicio b) (HitoBody.ubicacion b)
          (Js.or (HitoBody.fecha_finalizacion b) Js.Null)
          (HitoBody.comentarios b) (HitoBody.ilustracion b)) d
  = exec (INSERT_hitos (HitoBody.item n) (HitoBody.etapa_id n)
            (HitoBody.fecha_inicio n) (HitoBody.ubicacion n)
            (Js.or (HitoBody.fecha_finalizacion n) Js.Null)
            (HitoBody.comentarios n) (HitoBody.ilustracion n)) d
  /\ exec (UPDATE_hitos (HitoBody.etapa_id b) (HitoBody.fecha_inicio b)
             (HitoBody.ubicacion b)
             (Js.or (HitoBody.fecha_finalizacion b) Js.Null)
             (HitoBody.comentarios b) (HitoBody.ilustracion b) id) d
     = exec (UPDATE_hitos (HitoBody.etapa_id n) (HitoBody.fecha_inicio n)
               (HitoBody.ubicacion n)
               (Js.or (HitoBody.fecha_finalizacion n) Js.Null)
               (HitoBody.comentarios n) (HitoBody.ilustracion n) id) d.
Proof.
  cbn [null_for_omitted HitoBody.item HitoBody.etapa_id HitoBody.fecha_inicio
       HitoBody.ubicacion HitoBody.fecha_finalizacion HitoBody.comentarios
       HitoBody.ilustracion exec].
  split.
  - destruct (the_hitos d) as [?|th]; [reflexivity|]. cbn [Sql.bind].
    destruct (not_null "item" as_int _) as [?|it]; [reflexivity|].
    cbn [Sql.bind]. now rewrite hito_row_null.
  - destruct (the_hitos d) as [?|th]; [reflexivity|]. cbn [Sql.bind].
    erewrite update_rows_ext; [reflexivity|].
    intros h. unfold assign. now rewrite hito_row_null.
Qed.

(** C10, as amended.  In milestone create and update only the
    completion date is coalesced to null when falsy; comments and
    illustration are bound as read, so a body that omits one of them
    hands [undefined] to [pool.query].  [pool.query] writes [undefined]
    as [NULL], as it writes [null]: the request is answered, and leaves
    the database, exactly as the same request with [null] in the omitted
    fields, and when it is answered 201 (create) or 200 (update) the row
    created, or each row updated, holds [NULL] in the omitted column. *)
Theorem omitted_optional_fields_are_stored_null (id : Z) (b : HitoBody.t)
  (w : world) :
  HitoBody.comentarios b = Js.Undefined
  \/ HitoBody.ilustracion b = Js.Undefined ->
  let create := post_api_hitos b w in
  let update := put_api_hitos id b w in
  (issued (snd create) =
     issued w
     ++ [INSERT_hitos (HitoBody.item b) (HitoBody.etapa_id b)
           (HitoBody.fecha_inicio b) (HitoBody.ubicacion b)
           (Js.or (HitoBody.fecha_finalizacion b) Js.Null)
           (HitoBody.comentarios b) (HitoBody.ilustracion b)]
   /\ issued (snd update) =
        issued w
        ++ [UPDATE_hitos (HitoBody.etapa_id b) (HitoBody.fecha_inicio b)
              (HitoBody.ubicacion b)
              (Js.or (HitoBody.fecha_finalizacion b) Js.Null)
              (HitoBody.comentarios b) (HitoBody.ilustracion b) id])
  /\ (fst create = fst (post_api_hitos (null_for_omitted b) w)
      /\ db (snd create) = db (snd (post_api_hitos (null_for_omitted b) w))
      /\ fst update = fst (put_api_hitos id (null_for_omitted b) w)
      /\ db (snd update)
         = db (snd (put_api_hitos id (null_for_omitted b) w)))
  /\ (forall i,
        fst create
          = Normal {| status := 201; body := Json_id_success i |} ->
        exists row,
          hitos_rows (db (snd create)) = hitos_rows (db w) ++ [row]
          /\ (HitoBody.comentarios b = Js.Undefined ->
              Hitos.comentarios row = None)
          /\ (HitoBody.ilustracion b = Js.Undefined ->
              Hitos.ilustracion row = None))
  /\ (fst update = Normal {| status := 200; body := Json_success |} ->
      forall row,
        In row (hitos_rows (db (snd update))) -> Hitos.id row = id ->
        (HitoBody.comentarios b = Js.Undefined ->
         Hitos.comentarios row = None)
        /\ (HitoBody.ilustracion b = Js.Undefined ->
            Hitos.ilustracion row = None)).
Proof.
  intros _ create update. unfold create, update.
  destruct (post_api_hitos_step b w) as (Hc1 & Hc2 & Hc3).
  destruct (put_api_hitos_step id b w) as (Hu1 & Hu2 & Hu3).
  destruct (post_api_hitos_step (null_for_omitted b) w) as (Hn1 & Hn2 & _).
  destruct (put_api_hitos_step id (null_for_omitted b) w) as (Hm1 & Hm2 & _).
  destruct (exec_null_for_omitted id b (db w)) as [Hins Hupd].
  apply round_trip_same_exec in Hins. apply round_trip_same_exec in Hupd.
  destruct Hins as [Hins1 Hins2]. destruct Hupd as [Hupd1 Hupd2].
  split; [split; assumption|]. split.
  { rewrite Hc1, Hc2, Hu1, Hu2, Hn1, Hn2, Hm1, Hm2.
    rewrite Hins1, Hins2, Hupd1, Hupd2. auto. }
  split.
  - intros i H201. rewrite Hc2. rewrite Hc1 in H201.
    match type of H201 with context [round_trip ?s w] => set (s0 := s) in * end.
    destruct (round_trip_cases s0 w) as [[e Hrt] | (r & d & Hexec & Hrt)];
      rewrite Hrt in *; cbn in H201; [discriminate|].
    cbn. apply exec_INSERT_hitos in Hexec.
    destruct Hexec as (row & Hrows & Hcom & Hil).
    exists row. split; [exact Hrows|]. split.
    + intros Hundef. rewrite Hundef in Hcom.
      exact (nullable_undefined _ _ _ Hcom).
    + intros Hundef. rewrite Hundef in Hil.
      exact (nullable_undefined _ _ _ Hil).
  - intros H200 row Hrow Hid.
    destruct (put_api_hitos_200 id b w H200) as (r & d & Hexec & _ & Hdb).
    rewrite Hdb in Hrow.
    destruct (exec_UPDATE_hitos b id _ _ _ Hexec) as [_ Hrows].
    destruct (Forall2_In_r _ _ _ row Hrows Hrow) as (old & _ & Hrel).
    destruct (Z.eqb_spec (Hitos.id old) id) as [_|Hne].
    + destruct Hrel as [(_ & _ & _ & _ & _ & Hcom & Hil) _]. split.
      * intros Hundef. rewrite Hundef in Hcom.
        exact (nullable_undefined _ _ _ Hcom).
      * intros Hundef. rewrite Hundef in Hil.
        exact (nullable_undefined _ _ _ Hil).
    + subst row. contradiction.
Qed.

End OmittedFieldsClaim.

(** C10, the claim as stated fails.  The create body [bare_hito] omits
    comments and illustration (and carries an empty completion date):
    the request is answered 201, not 500, and the new row holds null in
    the three columns.  The update body [move_to_cusco] omits them too:
    the request is answered 200 and the row holds null in both. *)
Lemma omitted_optional_fields_do_not_fail :
  let create := post_api_hitos (E := strict) bare_hito with_hito_1 in
  let update := put_api_hitos (E := strict) 1 move_to_cusco with_hito_1 in
  HitoBody.comentarios bare_hito = Js.Undefined
  /\ HitoBody.ilustracion bare_hito = Js.Undefined
  /\ fst create = Normal {| status := 201; body := Json_id_success 2 |}
  /\ map (fun h => (Hitos.id h, Hitos.fecha_finalizacion h,
                    Hitos.comentarios h, Hitos.ilustracion h))
         (hitos_rows (db (snd create)))
     = [(1, None, Some "primer hito",
         Some "http://localhost:3000/uploads/1.png");
        (2, None, None, None)]
  /\ HitoBody.comentarios move_to_cusco = Js.Undefined
  /\ HitoBody.ilustracion move_to_cusco = Js.Undefined
  /\ fst update = Normal {| status := 200; body := Json_success |}
  /\ map (fun h => (Hitos.id h, Hitos.comentarios h, Hitos.ilustracion h))
         (hitos_rows (db (snd update)))
     = [(1, None, None)].
Proof. vm_compute. repeat split. Qed.

Lemma omitted_optional_fields_are_stored_null_witness :
  (HitoBody.comentarios bare_hito = Js.Undefined
   \/ HitoBody.ilustracion bare_hito = Js.Undefined)
  /\ fst (post_api_hitos (E := strict) bare_hito with_hito_1)
     = Normal {| status := 201; body := Json_id_success 2 |}
  /\ exists row,
       hitos_rows (db (snd (post_api_hitos (E := strict) bare_hito
                              with_hito_1)))
       = hitos_rows (db with_hito_1) ++ [row]
       /\ Hitos.comentarios row = None
       /\ Hitos.ilustracion row = None.
Proof.
  split; [left; reflexivity|].
  split; [reflexivity|].
  destruct (omitted_optional_fields_are_stored_null (E := strict) 1
              bare_hito with_hito_1 (or_introl eq_refl))
    as (_ & _ & Hcreate & _).
  destruct (Hcreate 2 eq_refl) as (row & Hrows & Hcom & Hil).
  exists row. split; [exact Hrows|]. split; [exact (Hcom eq_refl)|].
  exact (Hil eq_refl).
Defined.

(** ** The foreign key is an invariant of the store *)

Section ForeignKey.
Context {E : engine}.

Lemma referential_In (d : database) :
  referential d <->
  forall h, In h (hitos_rows d) ->
  exists e, In e (etapas_rows d) /\ Etapas.id e = Hitos.etapa_id h.
Proof.
  unfold referential. rewrite forallb_forall. split.
  - intros H h Hh. specialize (H h Hh). apply existsb_exists in H.
    destruct H as (e & He & Heq). apply Z.eqb_eq in Heq. now exists e.
  - intros H h Hh. destruct (H h Hh) as (e & He & Heq).
    apply existsb_exists. exists e. split; [exact He|]. now apply Z.eqb_eq.
Qed.

Lemma etapas_rows_with_etapas (d : database) (t : table Etapas.row) :
  etapas_rows (with_etapas d t) = rows t
  /\ hitos_rows (with_etapas d t) = hitos_rows d.
Proof. split; reflexivity. Qed.

Lemma hitos_rows_with_hitos (d : database) (t : table Hitos.row) :
  hitos_rows (with_hitos d t) = rows t
  /\ etapas_rows (with_hitos d t) = etapas_rows d.
Proof. split; reflexivity. Qed.

(** Every statement that the store accepts keeps the foreign key. *)
Lemma exec_referential (s : stmt) (d d' : database) (r : rowset) :
  referential d -> exec s d = inr (r, d') -> referential d'.
Proof.
  rewrite !referential_In. intros Href Hexec.
  destruct s; cbn [exec] in Hexec.
  - (* CREATE TABLE etapas *)
    destruct (etapas d) as [te|] eqn:Hte; injection Hexec as _ <-;
      [exact Href|].
    intros h Hh. destruct (Href h Hh) as (e & He & _).
    unfold etapas_rows in He. rewrite Hte in He. destruct He.
  - (* CREATE TABLE hitos *)
    destruct (hitos d) as [th|] eqn:Hth; [injection Hexec as _ <-; exact Href|].
    destruct (etapas d); [|discriminate]. injection Hexec as _ <-.
    intros h [].
  - (* SELECT etapas *)
    destruct (the_etapas d); [discriminate|]. injection Hexec as _ <-.
    exact Href.
  - (* INSERT default etapas *)
    unfold the_etapas in Hexec.
    destruct (etapas d) as [te|] eqn:Hte; [|discriminate].
    injection Hexec as _ <-. intros h Hh.
    destruct (Href h Hh) as (e & He & Heq). exists e. split; [|exact Heq].
    unfold etapas_rows in *. rewrite Hte in He. cbn.
    apply in_or_app. now left.
  - (* SELECT etapas ORDER BY id *)
    destruct (the_etapas d); [discriminate|]. injection Hexec as _ <-.
    exact Href.
  - (* INSERT etapas *)
    unfold the_etapas in Hexec.
    destruct (etapas d) as [te|] eqn:Hte; [|discriminate]. cbn [Sql.bind] in Hexec.
    destruct (not_null "nombre" _ _); [discriminate|]. cbn [Sql.bind] in Hexec.
    destruct (not_null "color" _ _); [discriminate|]. cbn [Sql.bind] in Hexec.
    injection Hexec as _ <-. intros h Hh.
    destruct (Href h Hh) as (e & He & Heq). exists e. split; [|exact Heq].
    unfold etapas_rows in *. rewrite Hte in He. cbn.
    apply in_or_app. now left.
  - (* SELECT COUNT *)
    destruct (the_hitos d); [discriminate|]. injection Hexec as _ <-.
    exact Href.
  - (* DELETE etapas *)
    unfold the_etapas in Hexec.
    destruct (etapas d) as [te|] eqn:Hte; [|discriminate]. cbn [Sql.bind] in Hexec.
    destruct (existsb _ (rows te) && existsb _ (hitos_rows d))%bool eqn:Hguard;
      [discriminate|].
    injection Hexec as _ <-. intros h Hh.
    destruct (Href h Hh) as (e & He & Heq). exists e. split; [|exact Heq].
    unfold etapas_rows in *. rewrite Hte in He. cbn.
    apply filter_In. split; [exact He|]. apply negb_true_iff.
    destruct (Z.eqb_spec (Etapas.id e) id) as [Hid|]; [|reflexivity].
    exfalso. apply andb_false_iff in Hguard. destruct Hguard as [Hg|Hg].
    + pose proof (existsb_false_In _ _ Hg e He) as Hf. cbn in Hf.
      apply Z.eqb_neq in Hf. contradiction.
    + pose proof (existsb_false_In _ _ Hg h Hh) as Hf. cbn in Hf.
      apply Z.eqb_neq in Hf. congruence.
  - (* SELECT hitos JOIN etapas *)
    destruct (the_hitos d); [discriminate|]. cbn [Sql.bind] in Hexec.
    destruct (the_etapas d); [discriminate|]. injection Hexec as _ <-.
    exact Href.
  - (* INSERT hitos *)
    unfold the_hitos in Hexec.
    destruct (hitos d) as [th|] eqn:Hth; [|discriminate]. cbn [Sql.bind] in Hexec.
    destruct (not_null "item" _ _); [discriminate|]. cbn [Sql.bind] in Hexec.
    destruct (hito_row _ _ _ _ _ _ _ _ _) as [?|row] eqn:Hrow; [discriminate|].
    injection Hexec as _ <-. intros h Hh.
    destruct (hitos_rows_with_hitos d
                {| rows := rows th ++ [row];
                   auto_increment := auto_increment th + 1 |}) as [Hh' He'].
    rewrite He'. rewrite Hh' in Hh. cbn in Hh.
    apply in_app_or in Hh. destruct Hh as [Hh|[<-|[]]].
    + apply Href. unfold hitos_rows. now rewrite Hth.
    + apply hito_row_inr in Hrow.
      destruct Hrow as (_ & _ & _ & _ & _ & _ & _ & _ & Hfk).
      apply existsb_exists in Hfk. destruct Hfk as (e & He & Heq).
      apply Z.eqb_eq in Heq. now exists e.
  - (* UPDATE hitos *)
    apply exec_UPDATE_rows in Hexec. destruct Hexec as [Het Hrows].
    intros h Hh.
    assert (Hes : etapas_rows d' = etapas_rows d).
    { unfold etapas_rows. now rewrite Het. }
    rewrite Hes.
    destruct (Forall2_In_r _ _ _ h Hrows Hh) as (old & Hold & Hrel).
    destruct (Hitos.id old =? id).
    + unfold assign in Hrel. apply hito_row_inr in Hrel.
      destruct Hrel as (_ & _ & _ & _ & _ & _ & _ & _ & Hfk).
      apply existsb_exists in Hfk. destruct Hfk as (e & He & Heq).
      apply Z.eqb_eq in Heq. now exists e.
    + subst h. now apply Href.
  - (* DELETE hitos *)
    unfold the_hitos in Hexec.
    destruct (hitos d) as [th|] eqn:Hth; [|discriminate].
    injection Hexec as _ <-. intros h Hh. cbn in Hh.
    apply filter_In in Hh. destruct Hh as [Hh _].
    apply Href. unfold hitos_rows. now rewrite Hth.
Qed.

End ForeignKey.

Section ForeignKeyOfTheProcess.
Context {E : engine}.

Lemma round_trip_referential (s : stmt) (w : world) :
  referential (db w) -> referential (db (snd (round_trip s w))).
Proof.
  intros Href.
  destruct (round_trip_cases s w) as [[e ->] | (r & d & Hexec & ->)]; cbn.
  - exact Href.
  - exact (exec_referential _ _ _ _ Href Hexec).
Qed.

(** No request breaks the foreign key. *)
Lemma handlers_referential (w : world) :
  referential (db w) ->
  (forall b, referential (db (snd (post_api_etapas b w))))
  /\ (forall id, referential (db (snd (delete_api_etapas id w))))
  /\ (forall b, referential (db (snd (post_api_hitos b w))))
  /\ (forall id b, referential (db (snd (put_api_hitos id b w))))
  /\ (forall id, referential (db (snd (delete_api_hitos id w)))).
Proof.
  intros Href. repeat split; intros.
  - unfold post_api_etapas, try_catch, bind, pool_query.
    match goal with
    | |- context [round_trip ?s w] =>
        pose proof (round_trip_referential s w) as Hstep;
        destruct (round_trip s w) as [[?|?] ?]; cbn in *; auto
    end.
  - unfold delete_api_etapas, try_catch, bind, pool_query.
    pose proof (round_trip_referential (SELECT_COUNT_hitos id) w Href) as H1.
    destruct (round_trip (SELECT_COUNT_hitos id) w) as [[r|e] w1];
      cbn in *; [|exact H1].
    destruct (count_of r >? 0); cbn; [exact H1|].
    pose proof (round_trip_referential (DELETE_etapas id) w1 H1) as H2.
    destruct (round_trip (DELETE_etapas id) w1) as [[?|?] ?]; cbn in *; auto.
  - unfold post_api_hitos, try_catch, bind, pool_query.
    match goal with
    | |- context [round_trip ?s w] =>
        pose proof (round_trip_referential s w) as Hstep;
        destruct (round_trip s w) as [[?|?] ?]; cbn in *; auto
    end.
  - unfold put_api_hitos, try_catch, bind, pool_query.
    match goal with
    | |- context [round_trip ?s w] =>
        pose proof (round_trip_referential s w) as Hstep;
        destruct (round_trip s w) as [[?|?] ?]; cbn in *; auto
    end.
  - unfold delete_api_hitos, try_catch, bind, pool_query.
    match goal with
    | |- context [round_trip ?s w] =>
        pose proof (round_trip_referential s w) as Hstep;
        destruct (round_trip s w) as [[?|?] ?]; cbn in *; auto
    end.
Qed.

(** A bootstrap that meets no outage, from an empty database, leaves a
    serving process with the four default stages, the foreign key in
    force and the connection given back. *)
Lemma initDB_serving (w : world) :
  reachable w ->
  db w = {| etapas := None; hitos := None |} ->
  let w' := snd (initDB w) in
  serving w'
  /\ referential (db w')
  /\ etapas_rows (db w') = default_etapas 1
  /\ hitos_rows (db w') = []
  /\ leased w' = leased w.
Proof.
  intros Hreach Hdb.
  unfold initDB, try_catch, bind, pool_getConnection, connection_query,
    connection_release, console_log, console_error, ret, round_trip.
  rewrite Hdb. unfold reachable in Hreach.
  destruct (outages w) as [|[|] [|[|] [|[|] [|[|] [|[|] o]]]]];
    cbn in Hreach; try discriminate; cbn.
  all: repeat split; try discriminate; try reflexivity; exact Hreach.
Qed.

End ForeignKeyOfTheProcess.

(** * Further properties of the routes *)

(** ** [ORDER BY] *)

Lemma insert_by_Permutation {R} (key : R -> Z) (x : R) (l : list R) :
  Permutation (insert_by key x l) (x :: l).
Proof.
  induction l as [|y l IH]; simpl; [reflexivity|].
  destruct (key x <=? key y); [reflexivity|].
  rewrite IH. apply perm_swap.
Qed.

Lemma order_by_Permutation {R} (key : R -> Z) (l : list R) :
  Permutation (order_by key l) l.
Proof.
  induction l as [|x l IH]; simpl; [reflexivity|].
  rewrite insert_by_Permutation. now constructor.
Qed.

Lemma insert_by_sorted {R} (key : R -> Z) (x : R) (l : list R) :
  StronglySorted (fun a b => key a <= key b) l ->
  StronglySorted (fun a b => key a <= key b) (insert_by key x l).
Proof.
  induction 1 as [|y l Hl IH Hy]; simpl.
  - repeat constructor.
  - destruct (Z.leb_spec (key x) (key y)) as [Hle|Hgt].
    + constructor; [now constructor|].
      constructor; [lia|].
      eapply Forall_impl; [|exact Hy]. cbn. intros z Hz. lia.
    + constructor; [exact IH|].
      apply Forall_forall. intros z Hz. apply In_insert_by in Hz.
      destruct Hz as [->|Hz]; [lia|].
      rewrite Forall_forall in Hy. now apply Hy.
Qed.

Lemma order_by_sorted {R} (key : R -> Z) (l : list R) :
  StronglySorted (fun a b => key a <= key b) (order_by key l).
Proof.
  induction l as [|x l IH]; simpl; [constructor|].
  now apply insert_by_sorted.
Qed.

(** Rows ahead of which [x] may come keep it in front. *)
Lemma insert_by_first {R} (key : R -> Z) (x : R) (l : list R) :
  Forall (fun y => key x <= key y) l -> insert_by key x l = x :: l.
Proof.
  destruct l as [|y l]; simpl; [reflexivity|].
  intros H. inversion H as [|? ? Hy _]; subst.
  now apply Z.leb_le in Hy as ->.
Qed.

Lemma insert_by_front {R} (key : R -> Z) (x : R) (l : list R) :
  Forall (fun y => key x < key y) l -> insert_by key x l = x :: l.
Proof.
  intros H. apply insert_by_first.
  eapply Forall_impl; [|exact H]. cbn. intros y Hy. lia.
Qed.



(** ** Primary keys *)

Lemma ascending_spec (ids : list Z) (bound : Z) :
  ascending ids bound = true <->
  StronglySorted Z.lt ids /\ Forall (fun i => i < bound) ids.
Proof.
  induction ids as [|i rest IH]; simpl.
  - split; [split; constructor|reflexivity].
  - rewrite !andb_true_iff, IH, forallb_forall, Z.ltb_lt. split.
    + intros [[Hall Hi] [Hs Hb]]. split; constructor; auto.
      apply Forall_forall. intros j Hj. apply Z.ltb_lt. now apply Hall.
    + intros [Hs Hb]. inversion Hs as [|? ? Hs' Hall]; subst.
      inversion Hb; subst. repeat split; auto.
      intros j Hj. apply Z.ltb_lt. rewrite Forall_forall in Hall. now apply Hall.
Qed.

Lemma ascending_app (l l' : list Z) (n m : Z) :
  ascending l n = true ->
  Forall (fun j => n <= j) l' ->
  ascending l' m = true ->
  n <= m ->
  ascending (l ++ l') m = true.
Proof.
  rewrite !ascending_spec. intros [Hs Hb] Hge [Hs' Hb'] Hnm.
  rewrite Forall_forall in Hb, Hge, Hb'. split.
  - induction Hs as [|i l Hl IH Hi]; simpl; [exact Hs'|].
    constructor.
    + apply IH. intros j Hj. apply Hb. now right.
    + apply Forall_forall. intros j Hj. apply in_app_or in Hj.
      destruct Hj as [Hj|Hj].
      * rewrite Forall_forall in Hi. now apply Hi.
      * specialize (Hb i (or_introl eq_refl)). specialize (Hge j Hj). lia.
  - apply Forall_forall. intros j Hj. apply in_app_or in Hj.
    destruct Hj as [Hj|Hj]; [specialize (Hb j Hj); lia | now apply Hb'].
Qed.

Lemma ascending_filter {R} (key : R -> Z) (p : R -> bool) (l : list R)
  (bound : Z) :
  ascending (map key l) bound = true ->
  ascending (map key (filter p l)) bound = true.
Proof.
  rewrite !ascending_spec. intros [Hs Hb]. split.
  - induction l as [|x l IH]; simpl in *; [constructor|].
    inversion Hs as [|? ? Hs' Hall]; subst. inversion Hb; subst.
    destruct (p x); simpl; [|now apply IH].
    constructor; [now apply IH|].
    rewrite Forall_forall in *. intros j Hj. apply Hall.
    apply in_map_iff in Hj. destruct Hj as (y & <- & Hy).
    apply filter_In in Hy. apply in_map. tauto.
  - rewrite Forall_forall in *. intros j Hj. apply Hb.
    apply in_map_iff in Hj. destruct Hj as (y & <- & Hy).
    apply filter_In in Hy. apply in_map. tauto.
Qed.

(** A table in key order is listed by [ORDER BY] in table order. *)
Lemma order_by_ascending {R} (key : R -> Z) (l : list R) (bound : Z) :
  ascending (map key l) bound = true -> order_by key l = l.
Proof.
  rewrite ascending_spec. intros [Hs _].
  induction l as [|x l IH]; simpl in *; [reflexivity|].
  inversion Hs as [|? ? Hs' Hall]; subst.
  rewrite IH by exact Hs'. apply insert_by_front.
  rewrite Forall_forall in *. intros y Hy. apply Hall. now apply in_map.
Qed.

Lemma filter_nothing {A} (f : A -> bool) (l : list A) :
  (forall x, In x l -> f x = false) -> filter f l = [].
Proof.
  induction l as [|x l IH]; simpl; intros Hall; [reflexivity|].
  rewrite (Hall x (or_introl eq_refl)). apply IH.
  intros y Hy. apply Hall. now right.
Qed.

(** The key selects one row. *)
Lemma filter_key_unique {R} (key : R -> Z) (l : list R) (bound : Z) (e : R) :
  ascending (map key l) bound = true ->
  In e l ->
  filter (fun x => key e =? key x) l = [e].
Proof.
  rewrite ascending_spec. intros [Hs _].
  induction l as [|x l IH]; simpl in *; [intros []|].
  inversion Hs as [|? ? Hs' Hall]; subst.
  rewrite Forall_forall in Hall. intros [->|He].
  - rewrite Z.eqb_refl. f_equal.
    rewrite filter_nothing; [reflexivity|].
    intros y Hy. apply Z.eqb_neq.
    specialize (Hall (key y) (in_map key l y Hy)). lia.
  - destruct (Z.eqb_spec (key e) (key x)) as [Heq|_]; [|now apply IH].
    specialize (Hall (key e) (in_map key l e He)). lia.
Qed.

Section PrimaryKeys.
Context {E : engine}.

Lemma keyed_etapas (d : database) (t : table Etapas.row) :
  keyed d -> etapas d = Some t ->
  ascending (map Etapas.id (rows t)) (auto_increment t) = true.
Proof. intros [H _] Ht. now rewrite Ht in H. Qed.

Lemma keyed_hitos (d : database) (t : table Hitos.row) :
  keyed d -> hitos d = Some t ->
  ascending (map Hitos.id (rows t)) (auto_increment t) = true.
Proof. intros [_ H] Ht. now rewrite Ht in H. Qed.

Lemma keyed_with_etapas (d : database) (t : table Etapas.row) :
  keyed d ->
  ascending (map Etapas.id (rows t)) (auto_increment t) = true ->
  keyed (with_etapas d t).
Proof. intros [_ H] Ht. split; [exact Ht|exact H]. Qed.

Lemma keyed_with_hitos (d : database) (t : table Hitos.row) :
  keyed d ->
  ascending (map Hitos.id (rows t)) (auto_increment t) = true ->
  keyed (with_hitos d t).
Proof. intros [H _] Ht. split; [exact H|exact Ht]. Qed.

Lemma ascending_snoc (l : list Z) (n : Z) :
  ascending l n = true -> ascending (l ++ [n]) (n + 1) = true.
Proof.
  intros Hl. apply (ascending_app l [n] n (n + 1) Hl).
  - repeat constructor. lia.
  - cbn. rewrite andb_true_r. apply Z.ltb_lt. lia.
  - lia.
Qed.

(** Every statement that the store accepts keeps the keys of both
    tables increasing and below their counters. *)
Lemma exec_keyed (s : stmt) (d d' : database) (r : rowset) :
  keyed d -> exec s d = inr (r, d') -> keyed d'.
Proof.
  intros Hk Hexec. destruct s; cbn [exec] in Hexec.
  - destruct (etapas d) as [te|] eqn:Hte; injection Hexec as _ <-;
      [exact Hk|]. now apply keyed_with_etapas.
  - destruct (hitos d) as [th|] eqn:Hth; [injection Hexec as _ <-; exact Hk|].
    destruct (etapas d); [|discriminate]. injection Hexec as _ <-.
    now apply keyed_with_hitos.
  - destruct (the_etapas d); [discriminate|]. now injection Hexec as _ <-.
  - unfold the_etapas in Hexec.
    destruct (etapas d) as [te|] eqn:Hte; [|discriminate].
    injection Hexec as _ <-. apply keyed_with_etapas; [exact Hk|].
    cbn [rows auto_increment]. rewrite map_app.
    apply (ascending_app _ _ (auto_increment te));
      [exact (keyed_etapas _ _ Hk Hte) | | | lia].
    + cbn. repeat constructor; lia.
    + cbn. rewrite !andb_true_iff, !Z.ltb_lt. repeat split; lia.
  - destruct (the_etapas d); [discriminate|]. now injection Hexec as _ <-.
  - unfold the_etapas in Hexec.
    destruct (etapas d) as [te|] eqn:Hte; [|discriminate]. cbn [Sql.bind] in Hexec.
    destruct (not_null "nombre" _ _); [discriminate|]. cbn [Sql.bind] in Hexec.
    destruct (not_null "color" _ _); [discriminate|]. cbn [Sql.bind] in Hexec.
    injection Hexec as _ <-. apply keyed_with_etapas; [exact Hk|].
    cbn [rows auto_increment]. rewrite map_app. cbn [map Etapas.id].
    apply ascending_snoc. exact (keyed_etapas _ _ Hk Hte).
  - destruct (the_hitos d); [discriminate|]. now injection Hexec as _ <-.
  - unfold the_etapas in Hexec.
    destruct (etapas d) as [te|] eqn:Hte; [|discriminate]. cbn [Sql.bind] in Hexec.
    destruct (_ && _)%bool; [discriminate|].
    injection Hexec as _ <-. apply keyed_with_etapas; [exact Hk|].
    cbn [rows auto_increment]. apply ascending_filter.
    exact (keyed_etapas _ _ Hk Hte).
  - destruct (the_hitos d); [discriminate|]. cbn [Sql.bind] in Hexec.
    destruct (the_etapas d); [discriminate|]. now injection Hexec as _ <-.
  - unfold the_hitos in Hexec.
    destruct (hitos d) as [th|] eqn:Hth; [|discriminate]. cbn [Sql.bind] in Hexec.
    destruct (not_null "item" _ _); [discriminate|]. cbn [Sql.bind] in Hexec.
    destruct (hito_row _ _ _ _ _ _ _ _ _) as [?|row] eqn:Hrow; [discriminate|].
    injection Hexec as _ <-. apply keyed_with_hitos; [exact Hk|].
    cbn [rows auto_increment]. rewrite map_app. cbn [map].
    apply hito_row_inr in Hrow. destruct Hrow as (-> & _).
    apply ascending_snoc. exact (keyed_hitos _ _ Hk Hth).
  - pose proof Hexec as Hrows. apply exec_UPDATE_rows in Hrows.
    destruct Hrows as [_ Hrows].
    cbn [exec] in Hexec. unfold the_hitos in Hexec.
    destruct (hitos d) as [th|] eqn:Hth; [|discriminate]. cbn [Sql.bind] in Hexec.
    destruct (update_rows _ _ _) as [?|hs]; [discriminate|].
    injection Hexec as _ <-. apply keyed_with_hitos; [exact Hk|].
    cbn [rows auto_increment].
    unfold hitos_rows in Hrows. rewrite Hth in Hrows. cbn in Hrows.
    assert (Hids : map identity hs = map identity (rows th)).
    { apply Forall2_identity with (2 := Hrows).
      intros old new. destruct (Hitos.id old =? id).
      - unfold assign. intros Hrow. apply hito_row_inr in Hrow.
        unfold identity. destruct Hrow as (-> & -> & _). reflexivity.
      - now intros ->. }
    apply (f_equal (map fst)) in Hids. rewrite !map_map in Hids.
    change (map Hitos.id hs = map Hitos.id (rows th)) in Hids.
    rewrite Hids. exact (keyed_hitos _ _ Hk Hth).
  - unfold the_hitos in Hexec.
    destruct (hitos d) as [th|] eqn:Hth; [|discriminate].
    injection Hexec as _ <-. apply keyed_with_hitos; [exact Hk|].
    cbn [rows auto_increment]. apply ascending_filter.
    exact (keyed_hitos _ _ Hk Hth).
Qed.

End PrimaryKeys.

(** ** What every route keeps *)

Section Preservation.
Context {E : engine} {parser : multipart}.
Variable P : database -> Prop.
Hypothesis exec_P :
  forall s d d' r, P d -> exec s d = inr (r, d') -> P d'.

Lemma round_trip_preserves (s : stmt) (w : world) :
  P (db w) -> P (db (snd (round_trip s w))).
Proof.
  intros HP.
  destruct (round_trip_cases s w) as [[e ->] | (r & d & Hexec & ->)]; cbn.
  - exact HP.
  - exact (exec_P _ _ _ _ HP Hexec).
Qed.

(** A property of the database that every accepted statement keeps is
    kept by every route. *)
Lemma handle_preserves (q : request) (w : world) :
  P (db w) -> P (db (snd (handle q w))).
Proof.
  intros HP. destruct q; cbn [handle].
  - unfold get_api_etapas, try_catch, bind, pool_query.
    pose proof (round_trip_preserves SELECT_etapas_ORDER_BY_id w HP) as H1.
    destruct (round_trip _ w) as [[?|?] ?]; cbn in *; exact H1.
  - unfold post_api_etapas, try_catch, bind, pool_query.
    match goal with
    | |- context [round_trip ?s w] =>
        pose proof (round_trip_preserves s w HP) as H1;
        destruct (round_trip s w) as [[?|?] ?]; cbn in *; exact H1
    end.
  - unfold delete_api_etapas, try_catch, bind, pool_query.
    pose proof (round_trip_preserves (SELECT_COUNT_hitos id) w HP) as H1.
    destruct (round_trip (SELECT_COUNT_hitos id) w) as [[r|e] w1];
      cbn in *; [|exact H1].
    destruct (count_of r >? 0); cbn; [exact H1|].
    pose proof (round_trip_preserves (DELETE_etapas id) w1 H1) as H2.
    destruct (round_trip (DELETE_etapas id) w1) as [[?|?] ?]; cbn in *;
      exact H2.
  - unfold get_api_hitos, try_catch, bind, pool_query.
    pose proof (round_trip_preserves SELECT_hitos_JOIN_etapas w HP) as H1.
    destruct (round_trip _ w) as [[?|?] ?]; cbn in *; exact H1.
  - unfold post_api_hitos, try_catch, bind, pool_query.
    match goal with
    | |- context [round_trip ?s w] =>
        pose proof (round_trip_preserves s w HP) as H1;
        destruct (round_trip s w) as [[?|?] ?]; cbn in *; exact H1
    end.
  - unfold put_api_hitos, try_catch, bind, pool_query.
    match goal with
    | |- context [round_trip ?s w] =>
        pose proof (round_trip_preserves s w HP) as H1;
        destruct (round_trip s w) as [[?|?] ?]; cbn in *; exact H1
    end.
  - unfold delete_api_hitos, try_catch, bind, pool_query.
    pose proof (round_trip_preserves (DELETE_hitos id) w HP) as H1.
    destruct (round_trip _ w) as [[?|?] ?]; cbn in *; exact H1.
  - exact HP.
Qed.

Lemma serve_preserves (qs : list request) (w : world) :
  P (db w) -> P (db (serve qs w)).
Proof.
  revert w. induction qs as [|q qs IH]; intros w HP; cbn [serve].
  - exact HP.
  - apply IH. now apply handle_preserves.
Qed.

End Preservation.

Section Invariants.
Context {E : engine} {P : multipart}.

(** X1. Whatever requests the process serves, in whatever order, the two
    tables stay in place, every milestone keeps referring to an existing
    stage, and the ids of each table stay distinct, in increasing order
    and below the table's counter. *)
Theorem invariants_of_the_store (qs : list request) (w : world) :
  created (db w) -> referential (db w) -> keyed (db w) ->
  created (db (serve qs w))
  /\ referential (db (serve qs w))
  /\ keyed (db (serve qs w)).
Proof.
  intros Hc Hr Hk. split; [|split].
  - apply (serve_preserves created); [|exact Hc].
    intros s d d' r Hd Hexec. exact (exec_created s d d' r Hexec Hd).
  - apply (serve_preserves referential); [|exact Hr].
    intros s d d' r Hd Hexec. exact (exec_referential s d d' r Hd Hexec).
  - apply (serve_preserves keyed); [|exact Hk].
    intros s d d' r Hd Hexec. exact (exec_keyed s d d' r Hd Hexec).
Qed.

End Invariants.

Lemma invariants_of_the_store_witness :
  created (db bootstrapped) /\ referential (db bootstrapped)
  /\ keyed (db bootstrapped)
  /\ referential (db (serve (E := strict) a_session bootstrapped))
  /\ map Etapas.id
       (etapas_rows (db (serve (E := strict) a_session bootstrapped)))
     = [1; 2; 4; 5]
  /\ map Hitos.id
       (hitos_rows (db (serve (E := strict) a_session bootstrapped)))
     = [].
Proof.
  assert (Hc : created (db bootstrapped)) by (split; vm_compute; discriminate).
  assert (Hr : referential (db bootstrapped)) by reflexivity.
  assert (Hk : keyed (db bootstrapped)) by (split; reflexivity).
  destruct (invariants_of_the_store (E := strict) a_session bootstrapped
              Hc Hr Hk) as (_ & Hr' & _).
  refine (conj Hc (conj Hr (conj Hk (conj Hr' _)))).
  split; reflexivity.
Defined.

(** ** Every request is answered *)

Section Answers.
Context {E : engine} {P : multipart}.

Lemma exec_SELECT_COUNT_hitos (id : Z) (d d' : database) (r : rowset) :
  exec (SELECT_COUNT_hitos id) d = inr (r, d') -> d' = d.
Proof.
  cbn [exec]. destruct (the_hitos d); [discriminate|]. cbn [Sql.bind].
  now intros [= _ <-].
Qed.

(** X2. Every request gets an answer: no handler lets an error of the
    store escape, the status is one of 200, 201, 400 and 500, an answer
    of 400 or 500 leaves the database as it was, and a request sends the
    store at most two statements. *)
Theorem every_request_is_answered (q : request) (w : world) :
  exists r,
    fst (handle q w) = Normal r
    /\ In (status r) [200; 201; 400; 500]
    /\ (status r = 400 \/ status r = 500 ->
        db (snd (handle q w)) = db w)
    /\ (List.length (issued (snd (handle q w)))
        <= List.length (issued w) + 2)%nat.
Proof.
  destruct q; cbn [handle].
  - unfold get_api_etapas, try_catch, bind, pool_query.
    destruct (round_trip_cases SELECT_etapas_ORDER_BY_id w)
      as [[e ->] | (r & d & Hexec & ->)]; cbn;
      eexists; (split; [reflexivity|]); cbn; rewrite ?length_app; cbn;
      repeat split; auto; try lia.
  - unfold post_api_etapas, try_catch, bind, pool_query.
    match goal with |- context [round_trip ?s w] =>
      destruct (round_trip_cases s w) as [[e ->] | (r & d & Hexec & ->)]
    end; cbn;
      eexists; (split; [reflexivity|]); cbn; rewrite ?length_app; cbn;
      repeat split; auto; try lia.
  - unfold delete_api_etapas, try_catch, bind, pool_query.
    destruct (round_trip_cases (SELECT_COUNT_hitos id) w)
      as [[e ->] | (r & d & Hexec & ->)]; cbn.
    + eexists; (split; [reflexivity|]); cbn; rewrite ?length_app; cbn;
        repeat split; auto; lia.
    + apply exec_SELECT_COUNT_hitos in Hexec. subst d.
      destruct (count_of r >? 0); cbn.
      * eexists; (split; [reflexivity|]); cbn; rewrite ?length_app; cbn;
          repeat split; auto; lia.
      * set (w1 := sent (SELECT_COUNT_hitos id) w (db w)).
        destruct (round_trip_cases (DELETE_etapas id) w1)
          as [[e ->] | (r' & d' & Hexec' & ->)]; cbn;
          eexists; (split; [reflexivity|]); cbn; rewrite ?length_app; cbn;
          repeat split; auto; try lia.
  - unfold get_api_hitos, try_catch, bind, pool_query.
    destruct (round_trip_cases SELECT_hitos_JOIN_etapas w)
      as [[e ->] | (r & d & Hexec & ->)]; cbn;
      eexists; (split; [reflexivity|]); cbn; rewrite ?length_app; cbn;
      repeat split; auto; try lia.
  - unfold post_api_hitos, try_catch, bind, pool_query.
    match goal with |- context [round_trip ?s w] =>
      destruct (round_trip_cases s w) as [[e ->] | (r & d & Hexec & ->)]
    end; cbn;
      eexists; (split; [reflexivity|]); cbn; rewrite ?length_app; cbn;
      repeat split; auto; try lia.
  - unfold put_api_hitos, try_catch, bind, pool_query.
    match goal with |- context [round_trip ?s w] =>
      destruct (round_trip_cases s w) as [[e ->] | (r & d & Hexec & ->)]
    end; cbn;
      eexists; (split; [reflexivity|]); cbn; rewrite ?length_app; cbn;
      repeat split; auto; try lia.
  - unfold delete_api_hitos, try_catch, bind, pool_query.
    destruct (round_trip_cases (DELETE_hitos id) w)
      as [[e ->] | (r & d & Hexec & ->)]; cbn;
      eexists; (split; [reflexivity|]); cbn; rewrite ?length_app; cbn;
      repeat split; auto; try lia.
  - exists (post_api_upload r). cbn. split; [reflexivity|].
    split; [|split; [reflexivity|lia]].
    pose proof (post_api_upload_status r) as H. cbn in *. tauto.
Qed.

End Answers.

(** ** Each route writes its own table *)

Section Frame.
Context {E : engine} {P : multipart}.

Lemma exec_frame (s : stmt) (d d' : database) (r : rowset) :
  exec s d = inr (r, d') ->
  match s with
  | CREATE_TABLE_etapas | INSERT_default_etapas | INSERT_etapas _ _
  | DELETE_etapas _ => hitos d' = hitos d
  | CREATE_TABLE_hitos | INSERT_hitos _ _ _ _ _ _ _
  | UPDATE_hitos _ _ _ _ _ _ _ | DELETE_hitos _ => etapas d' = etapas d
  | _ => d' = d
  end.
Proof.
  destruct d as [[te|] [th|]];
    destruct s; cbn [exec]; unfold the_etapas, the_hitos, hitos_rows;
    cbn [etapas hitos Sql.bind]; try discriminate;
    repeat match goal with
      | |- context [Sql.bind ?x _] =>
          destruct x; cbn [Sql.bind]; [discriminate|]
      | |- context [if ?c then _ else _] => destruct c
      end;
    try discriminate; intros [= _ <-]; reflexivity.
Qed.

Lemma round_trip_frame (s : stmt) (w : world) :
  match s with
  | CREATE_TABLE_etapas | INSERT_default_etapas | INSERT_etapas _ _
  | DELETE_etapas _ =>
      hitos (db (snd (round_trip s w))) = hitos (db w)
  | CREATE_TABLE_hitos | INSERT_hitos _ _ _ _ _ _ _
  | UPDATE_hitos _ _ _ _ _ _ _ | DELETE_hitos _ =>
      etapas (db (snd (round_trip s w))) = etapas (db w)
  | _ => db (snd (round_trip s w)) = db w
  end.
Proof.
  destruct (round_trip_cases s w) as [[e ->] | (r & d & Hexec & ->)].
  - destruct s; reflexivity.
  - apply exec_frame in Hexec. destruct s; exact Hexec.
Qed.

(** X3. No route writes the other table: the stage routes leave the
    milestone table as it is (deleting a stage deletes no milestone),
    the milestone routes leave the stage table as it is, and the two
    listings and the upload leave the whole database as it is. *)
Theorem routes_write_their_own_table (q : request) (w : world) :
  (writes_etapas q = false ->
   etapas (db (snd (handle q w))) = etapas (db w))
  /\ (writes_hitos q = false ->
      hitos (db (snd (handle q w))) = hitos (db w))
  /\ (writes_etapas q = false -> writes_hitos q = false ->
      db (snd (handle q w)) = db w).
Proof.
  destruct q; cbn [handle writes_etapas writes_hitos];
    (split; [|split]); try discriminate; intros; try reflexivity.
  all: try (unfold get_api_etapas, try_catch, bind, pool_query;
            pose proof (round_trip_frame SELECT_etapas_ORDER_BY_id w) as H1;
            cbn in H1;
            destruct (round_trip _ w) as [[?|?] ?]; cbn in *;
            now rewrite H1).
  all: try (unfold get_api_hitos, try_catch, bind, pool_query;
            pose proof (round_trip_frame SELECT_hitos_JOIN_etapas w) as H1;
            cbn in H1;
            destruct (round_trip _ w) as [[?|?] ?]; cbn in *;
            now rewrite H1).
  - unfold post_api_etapas, try_catch, bind, pool_query.
    match goal with |- context [round_trip ?s w] =>
      pose proof (round_trip_frame s w) as H1 end.
    cbn in H1. destruct (round_trip _ w) as [[?|?] ?]; cbn in *; exact H1.
  - unfold delete_api_etapas, try_catch, bind, pool_query.
    pose proof (round_trip_frame (SELECT_COUNT_hitos id) w) as H1.
    cbn in H1.
    destruct (round_trip (SELECT_COUNT_hitos id) w) as [[r|e] w1];
      cbn in *; [|now rewrite H1].
    destruct (count_of r >? 0); cbn; [now rewrite H1|].
    pose proof (round_trip_frame (DELETE_etapas id) w1) as H2. cbn in H2.
    destruct (round_trip (DELETE_etapas id) w1) as [[?|?] ?]; cbn in *;
      now rewrite H2, H1.
  - unfold post_api_hitos, try_catch, bind, pool_query.
    match goal with |- context [round_trip ?s w] =>
      pose proof (round_trip_frame s w) as H1 end.
    cbn in H1. destruct (round_trip _ w) as [[?|?] ?]; cbn in *; exact H1.
  - unfold put_api_hitos, try_catch, bind, pool_query.
    match goal with |- context [round_trip ?s w] =>
      pose proof (round_trip_frame s w) as H1 end.
    cbn in H1. destruct (round_trip _ w) as [[?|?] ?]; cbn in *; exact H1.
  - unfold delete_api_hitos, try_catch, bind, pool_query.
    pose proof (round_trip_frame (DELETE_hitos id) w) as H1. cbn in H1.
    destruct (round_trip _ w) as [[?|?] ?]; cbn in *; exact H1.
Qed.

End Frame.

Lemma routes_write_their_own_table_witness :
  writes_hitos (DELETE_api_etapas 2) = false
  /\ fst (handle (E := strict) (DELETE_api_etapas 2) with_hito_1)
     = Normal {| status := 200; body := Json_success |}
  /\ hitos (db (snd (handle (E := strict) (DELETE_api_etapas 2) with_hito_1)))
     = hitos (db with_hito_1)
  /\ db (snd (handle (E := strict) GET_api_hitos with_hito_1))
     = db with_hito_1.
Proof.
  split; [reflexivity|]. split; [reflexivity|]. split.
  - exact (proj1 (proj2 (routes_write_their_own_table (E := strict)
                           (DELETE_api_etapas 2) with_hito_1)) eq_refl).
  - exact (proj2 (proj2 (routes_write_their_own_table (E := strict)
                           GET_api_hitos with_hito_1)) eq_refl eq_refl).
Defined.

(** ** The two listings *)

Section Listings.
Context {E : engine}.

Lemma get_api_etapas_serving (w : world) :
  serving w ->
  get_api_etapas w
  = (Normal {| status := 200;
               body := Json_etapas
                         (order_by Etapas.id (etapas_rows (db w))) |},
     sent SELECT_etapas_ORDER_BY_id w (db w)).
Proof.
  intros [Hreach Hcreated].
  destruct (created_tables _ Hcreated) as (te & th & Hte & Hth).
  unfold get_api_etapas, try_catch, bind, pool_query.
  rewrite (round_trip_reachable _ _ Hreach).
  cbn [exec]. unfold the_etapas, etapas_rows. rewrite Hte. reflexivity.
Qed.

Lemma get_api_hitos_serving (w : world) :
  serving w ->
  get_api_hitos w
  = (Normal {| status := 200;
               body := Json_hitos
                         (order_by (fun j => Hitos.item (Hitos.h j))
                            (join (hitos_rows (db w))
                                  (etapas_rows (db w)))) |},
     sent SELECT_hitos_JOIN_etapas w (db w)).
Proof.
  intros [Hreach Hcreated].
  destruct (created_tables _ Hcreated) as (te & th & Hte & Hth).
  unfold get_api_hitos, try_catch, bind, pool_query.
  rewrite (round_trip_reachable _ _ Hreach).
  cbn [exec]. unfold the_hitos, the_etapas, hitos_rows, etapas_rows.
  rewrite Hth, Hte. reflexivity.
Qed.

(** With the foreign key and the primary key in force the join has one
    row for each milestone, in table order. *)
Lemma join_one_each (hs : list Hitos.row) (es : list Etapas.row)
  (bound : Z) :
  (forall h, In h hs ->
     exists e, In e es /\ Etapas.id e = Hitos.etapa_id h) ->
  ascending (map Etapas.id es) bound = true ->
  map Hitos.h (join hs es) = hs.
Proof.
  intros Hfk Hasc. unfold join.
  induction hs as [|h hs IH]; cbn [flat_map]; [reflexivity|].
  rewrite map_app, IH by (intros x Hx; apply Hfk; now right).
  destruct (Hfk h (or_introl eq_refl)) as (e & He & Heq).
  rewrite (filter_ext _ (fun x => Etapas.id e =? Etapas.id x))
    by (intros x; now rewrite Heq).
  rewrite (filter_key_unique Etapas.id es bound e Hasc He). reflexivity.
Qed.

(** X4. On a serving process the stage listing answers 200 with every
    stage row exactly once, in non-decreasing order of id; with the
    primary key in force this is the order in which the stages were
    created. *)
Theorem stages_are_listed_by_id (w : world) :
  serving w ->
  exists l,
    fst (get_api_etapas w)
      = Normal {| status := 200; body := Json_etapas l |}
    /\ Permutation l (etapas_rows (db w))
    /\ StronglySorted (fun a b => Etapas.id a <= Etapas.id b) l
    /\ (keyed (db w) -> l = etapas_rows (db w)).
Proof.
  intros Hserving. rewrite (get_api_etapas_serving w Hserving).
  eexists. split; [reflexivity|]. split; [apply order_by_Permutation|].
  split; [apply order_by_sorted|].
  intros Hk. destruct (created_tables _ (proj2 Hserving))
    as (te & th & Hte & Hth).
  unfold etapas_rows. rewrite Hte.
  exact (order_by_ascending _ _ _ (keyed_etapas _ _ Hk Hte)).
Qed.

(** X5. On a serving process with the foreign key and the primary key
    in force, the milestone listing answers 200 with every milestone
    exactly once, in non-decreasing order of [item], each joined with
    the name and the colour of the stage it refers to. *)
Theorem milestones_are_listed_by_item (w : world) :
  serving w -> referential (db w) -> keyed (db w) ->
  exists l,
    fst (get_api_hitos w)
      = Normal {| status := 200; body := Json_hitos l |}
    /\ Permutation (map Hitos.h l) (hitos_rows (db w))
    /\ StronglySorted
         (fun a b => Hitos.item (Hitos.h a) <= Hitos.item (Hitos.h b)) l
    /\ forall j, In j l ->
       exists e, In e (etapas_rows (db w))
                 /\ Etapas.id e = Hitos.etapa_id (Hitos.h j)
                 /\ Hitos.etapa j = Etapas.nombre e
                 /\ Hitos.etapa_color j = Etapas.color e.
Proof.
  intros Hserving Hfk Hk. rewrite (get_api_hitos_serving w Hserving).
  eexists. split; [reflexivity|].
  destruct (created_tables _ (proj2 Hserving)) as (te & th & Hte & Hth).
  split; [|split].
  - rewrite (Permutation_map Hitos.h (order_by_Permutation _ _)).
    rewrite (join_one_each _ _ (auto_increment te)); [reflexivity| |].
    + now apply referential_In.
    + unfold etapas_rows. rewrite Hte. exact (keyed_etapas _ _ Hk Hte).
  - apply (order_by_sorted (fun j => Hitos.item (Hitos.h j))).
  - intros j Hj. apply In_order_by, In_join in Hj.
    destruct Hj as (h & e & _ & He & Heq & ->). exists e. cbn. auto.
Qed.

End Listings.

Lemma stages_are_listed_by_id_witness :
  serving bootstrapped
  /\ keyed (db bootstrapped)
  /\ exists l,
       fst (get_api_etapas (E := strict) bootstrapped)
         = Normal {| status := 200; body := Json_etapas l |}
       /\ map Etapas.id l = [1; 2; 3; 4].
Proof.
  assert (Hs : serving bootstrapped).
  { split; [reflexivity|]. split; vm_compute; discriminate. }
  assert (Hk : keyed (db bootstrapped)) by (split; reflexivity).
  refine (conj Hs (conj Hk _)).
  destruct (stages_are_listed_by_id (E := strict) bootstrapped Hs)
    as (l & Hl & _ & _ & Heq).
  exists l. split; [exact Hl|]. rewrite (Heq Hk). reflexivity.
Defined.

Lemma milestones_are_listed_by_item_witness :
  serving with_hito_1 /\ referential (db with_hito_1)
  /\ keyed (db with_hito_1)
  /\ exists l,
       fst (get_api_hitos (E := strict) with_hito_1)
         = Normal {| status := 200; body := Json_hitos l |}
       /\ map (fun j => (Hitos.ubicacion (Hitos.h j), Hitos.etapa j)) l
          = [("Lima", "Planificación")].
Proof.
  pose proof serving_with_hito_1 as Hs.
  assert (Hr : referential (db with_hito_1)) by reflexivity.
  assert (Hk : keyed (db with_hito_1)) by (split; reflexivity).
  refine (conj Hs (conj Hr (conj Hk _))).
  destruct (milestones_are_listed_by_item (E := strict) with_hito_1 Hs Hr Hk)
    as (l & Hl & _).
  exists l. split; [exact Hl|].
  vm_compute in Hl. injection Hl as <-. reflexivity.
Defined.

(** ** Creating rows *)

Section Creation.
Context {E : engine}.

Lemma reachable_tl (w w' : world) :
  reachable w -> outages w' = tl (outages w) -> reachable w'.
Proof.
  unfold reachable. intros H ->.
  destruct (outages w) as [|[|] rest]; cbn in *; auto. discriminate.
Qed.

(** A stage creation that was answered 201 went through the store. *)
Lemma post_api_etapas_201 (b : EtapaBody.t) (w : world) (r : response) :
  fst (post_api_etapas b w) = Normal r ->
  status r = 201 ->
  exists te n c,
    etapas (db w) = Some te
    /\ not_null "nombre" (as_varchar 100) (Sql.escape (EtapaBody.nombre b))
       = inr n
    /\ not_null "color" (as_varchar 7) (Sql.escape (EtapaBody.color b))
       = inr c
    /\ r = {| status := 201;
              body := Json_etapa (auto_increment te) (EtapaBody.nombre b)
                        (EtapaBody.color b) |}
    /\ snd (post_api_etapas b w)
       = sent (INSERT_etapas (EtapaBody.nombre b) (EtapaBody.color b)) w
           (with_etapas (db w)
              {| rows := rows te
                         ++ [ {| Etapas.id := auto_increment te;
                                 Etapas.nombre := n; Etapas.color := c |} ];
                 auto_increment := auto_increment te + 1 |}).
Proof.
  unfold post_api_etapas, try_catch, bind, pool_query.
  match goal with |- context [round_trip ?s w] => set (s0 := s) end.
  destruct (round_trip_cases s0 w) as [[e ->] | (r0 & d & Hexec & ->)]; cbn.
  - intros [= <-]. cbn. discriminate.
  - intros [= <-] _. unfold s0 in Hexec. cbn [exec] in Hexec.
    unfold the_etapas in Hexec.
    destruct (etapas (db w)) as [te|]; [|discriminate].
    cbn [Sql.bind] in Hexec.
    destruct (not_null "nombre" _ _) as [?|n]; [discriminate|].
    cbn [Sql.bind] in Hexec.
    destruct (not_null "color" _ _) as [?|c]; [discriminate|].
    cbn [Sql.bind] in Hexec. injection Hexec as <- <-.
    exists te, n, c. cbn. auto.
Qed.

(** X6. A stage creation answered 201 carries in its answer an id
    larger than the id of every stage there was, and a listing made
    right after it is the stages there were followed by the new one,
    which holds the body's name and colour under that id. *)
Theorem created_stage_is_listed_last (b : EtapaBody.t) (w : world)
  (r : response) :
  serving w -> keyed (db w) ->
  fst (post_api_etapas b w) = Normal r ->
  status r = 201 ->
  exists e,
    body r = Json_etapa (Etapas.id e) (EtapaBody.nombre b) (EtapaBody.color b)
    /\ not_null "nombre" (as_varchar 100) (Sql.escape (EtapaBody.nombre b))
       = inr (Etapas.nombre e)
    /\ not_null "color" (as_varchar 7) (Sql.escape (EtapaBody.color b))
       = inr (Etapas.color e)
    /\ (forall e', In e' (etapas_rows (db w)) -> Etapas.id e' < Etapas.id e)
    /\ fst (get_api_etapas (snd (post_api_etapas b w)))
       = Normal {| status := 200;
                   body := Json_etapas (etapas_rows (db w) ++ [e]) |}.
Proof.
  intros [Hreach Hcreated] Hk Hr H201.
  destruct (post_api_etapas_201 b w r Hr H201)
    as (te & n & c & Hte & Hn & Hc & -> & Hw').
  destruct (created_tables _ Hcreated) as (te' & th & _ & Hth).
  pose proof (keyed_etapas _ _ Hk Hte) as Hasc.
  exists {| Etapas.id := auto_increment te; Etapas.nombre := n;
            Etapas.color := c |}.
  cbn [Etapas.id Etapas.nombre Etapas.color body].
  refine (conj eq_refl (conj Hn (conj Hc (conj _ _)))).
  - intros e' He'. unfold etapas_rows in He'. rewrite Hte in He'.
    apply ascending_spec in Hasc. destruct Hasc as [_ Hb].
    rewrite Forall_forall in Hb. apply Hb. now apply in_map.
  - rewrite Hw'. rewrite get_api_etapas_serving.
    + unfold etapas_rows. cbn. rewrite Hte.
      rewrite (order_by_ascending Etapas.id _ (auto_increment te + 1));
        [reflexivity|].
      rewrite map_app. cbn [map Etapas.id]. now apply ascending_snoc.
    + split.
      * apply (reachable_tl w); [exact Hreach|reflexivity].
      * split; cbn; [discriminate|now rewrite Hth].
Qed.

(** What the store does with an accepted [INSERT INTO hitos]. *)
Lemma exec_INSERT_hitos_row (a b c d e f g : Js.value) (d0 d' : database)
  (r : rowset) :
  exec (INSERT_hitos a b c d e f g) d0 = inr (r, d') ->
  exists th it row,
    hitos d0 = Some th
    /\ not_null "item" as_int (Sql.escape a) = inr it
    /\ hito_row (etapas_rows d0) (auto_increment th) it b c d e f g = inr row
    /\ r = ResultSetHeader (auto_increment th)
    /\ d' = with_hitos d0 {| rows := rows th ++ [row];
                             auto_increment := auto_increment th + 1 |}.
Proof.
  cbn [exec]. unfold the_hitos.
  destruct (hitos d0) as [th|]; [|discriminate]. cbn [Sql.bind].
  destruct (not_null "item" as_int (Sql.escape a)) as [?|it]; [discriminate|].
  cbn [Sql.bind].
  destruct (hito_row _ _ _ _ _ _ _ _ _) as [?|row] eqn:Hrow; [discriminate|].
  cbn [Sql.bind]. intros [= <- <-]. now exists th, it, row.
Qed.

(** X7. A milestone creation answered 201 appended one row: its id is
    the one in the answer, its columns hold the body's values (a falsy
    completion date as null), the stage it refers to exists, and a
    listing made right after it shows the row with that stage's name
    and colour. *)
Theorem created_milestone_is_listed (b : HitoBody.t) (w : world) (i : Z) :
  serving w ->
  fst (post_api_hitos b w)
    = Normal {| status := 201; body := Json_id_success i |} ->
  exists row e,
    hitos_rows (db (snd (post_api_hitos b w))) = hitos_rows (db w) ++ [row]
    /\ Hitos.id row = i
    /\ not_null "item" as_int (Sql.escape (HitoBody.item b))
       = inr (Hitos.item row)
    /\ replaced b row row
    /\ In e (etapas_rows (db w))
    /\ Etapas.id e = Hitos.etapa_id row
    /\ In {| Hitos.h := row; Hitos.etapa := Etapas.nombre e;
             Hitos.etapa_color := Etapas.color e |}
          (listing (snd (post_api_hitos b w))).
Proof.
  intros [Hreach Hcreated] H201.
  destruct (post_api_hitos_step b w) as (Hc1 & _ & _).
  rewrite Hc1 in H201. unfold post_api_hitos, try_catch, bind, pool_query.
  match type of H201 with context [round_trip ?s w] => set (s0 := s) in * end.
  destruct (round_trip_cases s0 w) as [[e Hrt] | (r & d & Hexec & Hrt)];
    rewrite Hrt in *; cbn in H201; [discriminate|].
  cbn. unfold s0 in Hexec. apply exec_INSERT_hitos_row in Hexec.
  destruct Hexec as (th & it & row & Hth & Hit & Hrow & -> & ->).
  injection H201 as <-.
  pose proof Hrow as Hfields. apply hito_row_inr in Hfields.
  destruct Hfields as (Hid & Hitem & H1 & H2 & H3 & H4 & H5 & H6 & Hfk).
  apply existsb_exists in Hfk. destruct Hfk as (e & He & Heq).
  apply Z.eqb_eq in Heq.
  exists row, e.
  assert (Hrows : hitos_rows
                    (with_hitos (db w)
                       {| rows := rows th ++ [row];
                          auto_increment := auto_increment th + 1 |})
                  = hitos_rows (db w) ++ [row]).
  { unfold hitos_rows. cbn. now rewrite Hth. }
  refine (conj Hrows (conj Hid (conj _ (conj _ (conj He (conj Heq _)))))).
  - now rewrite Hitem.
  - unfold replaced. auto 10.
  - rewrite listing_serving.
    + apply In_order_by, In_join. exists row, e. cbn [db sent].
      rewrite Hrows. split; [apply in_or_app; right; now left|].
      split; [exact He|]. split; [now symmetry|reflexivity].
    + split.
      * apply (reachable_tl w); [exact Hreach|reflexivity].
      * destruct Hcreated as [Het _]. split; cbn; [exact Het|discriminate].
Qed.

End Creation.

Lemma created_stage_is_listed_last_witness :
  serving bootstrapped /\ keyed (db bootstrapped)
  /\ fst (post_api_etapas (E := strict) etapa_revision bootstrapped)
     = Normal {| status := 201;
                 body := Json_etapa 5 (Js.Str "Revisión")
                           (Js.Str "#123456") |}
  /\ exists e,
       Etapas.id e = 5
       /\ fst (get_api_etapas (E := strict)
                 (snd (post_api_etapas (E := strict) etapa_revision
                         bootstrapped)))
          = Normal {| status := 200;
                      body := Json_etapas
                                (etapas_rows (db bootstrapped) ++ [e]) |}.
Proof.
  assert (Hs : serving bootstrapped).
  { split; [reflexivity|]. split; vm_compute; discriminate. }
  assert (Hk : keyed (db bootstrapped)) by (split; reflexivity).
  refine (conj Hs (conj Hk (conj eq_refl _))).
  destruct (created_stage_is_listed_last (E := strict) etapa_revision
              bootstrapped _ Hs Hk eq_refl eq_refl)
    as (e & Hbody & _ & _ & _ & Hlist).
  exists e. split; [|exact Hlist].
  vm_compute in Hbody. injection Hbody as Hid. symmetry. exact Hid.
Defined.

Lemma created_milestone_is_listed_witness :
  serving with_hito_1
  /\ fst (post_api_hitos (E := strict) bare_hito with_hito_1)
     = Normal {| status := 201; body := Json_id_success 2 |}
  /\ exists row e,
       Hitos.id row = 2
       /\ Etapas.id e = Hitos.etapa_id row
       /\ In {| Hitos.h := row; Hitos.etapa := Etapas.nombre e;
                Hitos.etapa_color := Etapas.color e |}
             (listing (E := strict)
                (snd (post_api_hitos (E := strict) bare_hito with_hito_1))).
Proof.
  pose proof serving_with_hito_1 as Hs.
  refine (conj Hs (conj eq_refl _)).
  destruct (created_milestone_is_listed (E := strict) bare_hito with_hito_1
              2 Hs eq_refl)
    as (row & e & _ & Hid & _ & _ & _ & Heq & Hin).
  exists row, e. auto.
Defined.

(** ** A milestone of a stage that does not exist *)

Section MissingStage.
Context {E : engine}.

Lemma hito_row_missing_stage (es : list Etapas.row) (id item : Z)
  (a b c d e f : Js.value) :
  (forall k, not_null "etapa_id" as_int (Sql.escape a) = inr k ->
             existsb (fun x => Etapas.id x =? k) es = false) ->
  exists err, hito_row es id item a b c d e f = inl err.
Proof.
  intros Hmissing.
  destruct (hito_row es id item a b c d e f) as [err|row] eqn:Hrow;
    [now exists err|].
  apply hito_row_inr in Hrow.
  destruct Hrow as (_ & _ & Hk & _ & _ & _ & _ & _ & Hfk).
  rewrite (Hmissing _ Hk) in Hfk. discriminate.
Qed.

(** X8. Unless the stage id of the body is the id of an existing stage,
    a milestone creation is answered 500 and stores nothing, and so is
    the update of an existing milestone: the handlers make no check of
    their own, the foreign key refuses the statement. *)
Theorem milestone_of_missing_stage_is_refused (id : Z) (b : HitoBody.t)
  (w : world) :
  (forall k,
     not_null "etapa_id" as_int (Sql.escape (HitoBody.etapa_id b)) = inr k ->
     no_etapa k (db w)) ->
  (fst (post_api_hitos b w)
     = Normal {| status := 500; body := Json_error "Error al crear hito" |}
   /\ db (snd (post_api_hitos b w)) = db w)
  /\ (existsb (fun h => Hitos.id h =? id) (hitos_rows (db w)) = true ->
      fst (put_api_hitos id b w)
        = Normal {| status := 500;
                    body := Json_error "Error al actualizar hito" |}
      /\ db (snd (put_api_hitos id b w)) = db w).
Proof.
  intros Hmissing. split.
  - destruct (post_api_hitos_step b w) as (Hc1 & Hc2 & _).
    rewrite Hc1, Hc2.
    match goal with |- context [round_trip ?s w] => set (s0 := s) end.
    destruct (round_trip_cases s0 w) as [[e ->] | (r & d & Hexec & _)];
      [cbn; auto|].
    exfalso. unfold s0 in Hexec. apply exec_INSERT_hitos_row in Hexec.
    destruct Hexec as (th & it & row & _ & _ & Hrow & _).
    destruct (hito_row_missing_stage (etapas_rows (db w))
                (auto_increment th) it (HitoBody.etapa_id b)
                (HitoBody.fecha_inicio b) (HitoBody.ubicacion b)
                (Js.or (HitoBody.fecha_finalizacion b) Js.Null)
                (HitoBody.comentarios b) (HitoBody.ilustracion b) Hmissing)
      as [err Herr].
    congruence.
  - intros Hexists.
    destruct (put_api_hitos_step id b w) as (Hu1 & Hu2 & _).
    rewrite Hu1, Hu2.
    match goal with |- context [round_trip ?s w] => set (s0 := s) end.
    destruct (round_trip_cases s0 w) as [[e ->] | (r & d & Hexec & _)];
      [cbn; auto|].
    exfalso. unfold s0 in Hexec. cbn [exec] in Hexec.
    unfold the_hitos, hitos_rows in *.
    destruct (hitos (db w)) as [th|]; [|discriminate].
    cbn [Sql.bind] in Hexec.
    destruct (update_rows_refused
                (assign (match etapas (db w) with
                         | Some t => rows t | None => [] end)
                   (HitoBody.etapa_id b) (HitoBody.fecha_inicio b)
                   (HitoBody.ubicacion b)
                   (Js.or (HitoBody.fecha_finalizacion b) Js.Null)
                   (HitoBody.comentarios b) (HitoBody.ilustracion b))
                id (rows th)) as [err Herr].
    + intros h. unfold assign. apply hito_row_missing_stage. exact Hmissing.
    + exact Hexists.
    + unfold etapas_rows in Hexec. rewrite Herr in Hexec. discriminate.
Qed.

End MissingStage.

Lemma milestone_of_missing_stage_is_refused_witness :
  (forall k,
     not_null "etapa_id" (@as_int strict)
       (Sql.escape (HitoBody.etapa_id hito_sin_etapa)) = inr k ->
     no_etapa k (db with_hito_1))
  /\ fst (post_api_hitos (E := strict) hito_sin_etapa with_hito_1)
     = Normal {| status := 500; body := Json_error "Error al crear hito" |}
  /\ fst (put_api_hitos (E := strict) 1 hito_sin_etapa with_hito_1)
     = Normal {| status := 500;
                 body := Json_error "Error al actualizar hito" |}
  /\ hitos_rows (db (snd (put_api_hitos (E := strict) 1 hito_sin_etapa
                            with_hito_1)))
     = hitos_rows (db with_hito_1).
Proof.
  assert (H : forall k,
             not_null "etapa_id" (@as_int strict)
               (Sql.escape (HitoBody.etapa_id hito_sin_etapa)) = inr k ->
             no_etapa k (db with_hito_1)).
  { intros k Hk. vm_compute in Hk. injection Hk as <-. reflexivity. }
  destruct (milestone_of_missing_stage_is_refused (E := strict) 1
              hito_sin_etapa with_hito_1 H) as [[Hpost _] Hput].
  destruct (Hput eq_refl) as [H500 Hdb].
  refine (conj H (conj Hpost (conj H500 _))).
  now rewrite Hdb.
Defined.

(** ** Deleting rows *)

Section Deletion.
Context {E : engine}.





End Deletion.



(** ** The bootstrap, run again *)

Section BootstrapAgain.
Context {E : engine}.

(** The database that a bootstrap without outage leaves. *)
Lemma initDB_reachable (w : world) :
  reachable w ->
  let d1 := match etapas (db w) with
            | Some _ => db w
            | None => with_etapas (db w) {| rows := []; auto_increment := 1 |}
            end in
  let d2 := match hitos d1 with
            | Some _ => d1
            | None => with_hitos d1 {| rows := []; auto_increment := 1 |}
            end in
  let d3 := match etapas d2 with
            | Some {| rows := []; auto_increment := n |} =>
                with_etapas d2 {| rows := default_etapas n;
                                  auto_increment := n + 4 |}
            | _ => d2
            end in
  db (snd (initDB w)) = d3
  /\ reachable (snd (initDB w))
  /\ leased (snd (initDB w)) = leased w
  /\ console (snd (initDB w))
     = console w ++ ["Base de datos inicializada correctamente"].
Proof.
  intros Hreach.
  unfold initDB, try_catch, bind, pool_getConnection, connection_query,
    connection_release, console_log, console_error, ret, round_trip.
  unfold reachable in *.
  destruct w as [[[[[|x rs] ne]|] [th|]] o l i c]; cbn [db outages etapas hitos];
    destruct o as [|[|] [|[|] [|[|] [|[|] [|[|] o]]]]];
    cbn in Hreach; try discriminate; cbn; auto.
Qed.

(** X11. A bootstrap that meets no outage leaves both tables created
    and at least one stage, gives the connection back, and is
    idempotent: run again on the process it left, it leaves the same
    database. *)
Theorem initDB_is_idempotent (w : world) :
  reachable w ->
  let w1 := snd (initDB w) in
  created (db w1)
  /\ etapas_rows (db w1) <> []
  /\ leased w1 = leased w
  /\ db (snd (initDB w1)) = db w1.
Proof.
  intros Hreach w1.
  destruct (initDB_reachable w Hreach) as (Hdb & Hreach1 & Hleased & _).
  destruct (initDB_reachable w1 Hreach1) as (Hdb2 & _).
  fold w1 in Hdb, Hleased. rewrite Hdb2.
  assert (Hshape : created (db w1) /\ etapas_rows (db w1) <> []).
  { rewrite Hdb. unfold created, etapas_rows.
    destruct (db w) as [[[[|x rs] ne]|] [th|]]; cbn;
      repeat split; discriminate. }
  destruct Hshape as [Hc Hne]. refine (conj Hc (conj Hne (conj Hleased _))).
  destruct Hc as [Hce Hch]. unfold etapas_rows in Hne.
  destruct (db w1) as [[[[|x rs] ne]|] [th|]]; cbn in *;
    try congruence; reflexivity.
Qed.

(** X12. On a process whose tables exist, a bootstrap that meets no
    outage seeds exactly when the stage table is empty: with a stage in
    the table it sends no [INSERT] and leaves the database as it is;
    with none it inserts the four default stages, numbered from the
    table's counter, not from 1. *)
Theorem initDB_seeds_only_an_empty_table (w : world)
  (te : table Etapas.row) :
  reachable w ->
  etapas (db w) = Some te ->
  hitos (db w) <> None ->
  let w1 := snd (initDB w) in
  (rows te <> [] ->
     db w1 = db w
     /\ issued w1
        = issued w ++ [CREATE_TABLE_etapas; CREATE_TABLE_hitos; SELECT_etapas])
  /\ (rows te = [] ->
     etapas_rows (db w1) = default_etapas (auto_increment te)
     /\ hitos (db w1) = hitos (db w)
     /\ issued w1
        = issued w ++ [CREATE_TABLE_etapas; CREATE_TABLE_hitos; SELECT_etapas;
                       INSERT_default_etapas]).
Proof.
  intros Hreach Hte Hth w1. unfold w1.
  unfold initDB, try_catch, bind, pool_getConnection, connection_query,
    connection_release, console_log, console_error, ret, round_trip.
  unfold reachable in *.
  destruct w as [[de [th|]] o l i c]; cbn [db outages etapas hitos] in *;
    [|congruence].
  subst de. destruct te as [[|x rs] ne];
    destruct o as [|[|] [|[|] [|[|] [|[|] [|[|] o]]]]];
    cbn in Hreach; try discriminate; cbn; (split; [intros Hrows|intros Hrows]);
    try congruence; try discriminate; rewrite <- ?app_assoc; cbn; auto.
Qed.

End BootstrapAgain.

Lemma initDB_is_idempotent_witness :
  reachable (startup [])
  /\ map Etapas.id
       (etapas_rows (db (snd (initDB (E := strict) (startup [])))))
     = [1; 2; 3; 4]
  /\ db (snd (initDB (E := strict) (snd (initDB (E := strict) (startup [])))))
     = db (snd (initDB (E := strict) (startup []))).
Proof.
  split; [reflexivity|]. split; [reflexivity|].
  exact (proj2 (proj2 (proj2 (initDB_is_idempotent (E := strict) (startup [])
                               eq_refl)))).
Defined.

Lemma initDB_seeds_only_an_empty_table_witness :
  reachable emptied /\ reachable bootstrapped
  /\ etapas_rows (db emptied) = []
  /\ map Etapas.id (etapas_rows (db (snd (initDB (E := strict) emptied))))
     = [5; 6; 7; 8]
  /\ db (snd (initDB (E := strict) bootstrapped)) = db bootstrapped.
Proof.
  split; [reflexivity|]. split; [reflexivity|]. split; [reflexivity|]. split.
  - destruct (initDB_seeds_only_an_empty_table (E := strict) emptied
                {| rows := []; auto_increment := 5 |} eq_refl eq_refl)
      as [_ Hseed]; [vm_compute; discriminate|].
    destruct (Hseed eq_refl) as (Hrows & _). rewrite Hrows. reflexivity.
  - destruct (initDB_seeds_only_an_empty_table (E := strict) bootstrapped
                {| rows := default_etapas 1; auto_increment := 5 |}
                eq_refl eq_refl) as [Hkeep _]; [vm_compute; discriminate|].
    apply Hkeep. discriminate.
Defined.

(** ** The start of the process *)

Section Start.
Context {E : engine}.

Lemma initDB_never_throws (w : world) : fst (initDB w) = Normal tt.
Proof.
  unfold initDB, try_catch, bind, pool_getConnection, connection_query,
    connection_release, console_log, console_error, ret, round_trip.
  destruct (outages w) as [|[|] o1]; cbn [fst snd]; [ | reflexivity | ].
  all: repeat
    (cbn [fst snd db outages leased issued console sent tl];
     match goal with
     | |- context [match exec ?s ?d with _ => _ end] =>
         destruct (exec s d) as [?|[? ?]]
     | |- context [match ?l with [] => _ | _ => _ end] =>
         destruct l as [|[|] ?]
     | |- context [if ?c then _ else _] => destruct c
     end).
  all: reflexivity.
Qed.

(** X13. The process always gets to listen: whatever the store does
    during the bootstrap, [initDB] ends without throwing, logs exactly
    one line (success or error), and [app.listen] follows on the port of
    the environment, or 3000 when that is unset or empty. *)
Theorem start_always_listens (env_PORT : option string) (w : world) :
  fst (start env_PORT w) = Normal tt
  /\ (exists line,
        (line = "Base de datos inicializada correctamente"
         \/ line = "Error al inicializar la base de datos:")
        /\ console (snd (start env_PORT w))
           = console w
             ++ [line;
                 ("Servidor corriendo en http://localhost:"
                  ++ PORT env_PORT)%string])
  /\ PORT None = "3000"
  /\ PORT (Some "") = "3000"
  /\ (forall s, s <> "" -> PORT (Some s) = s).
Proof.
  unfold start, bind, app_listen, console_log.
  pose proof (initDB_never_throws w) as Hnormal.
  pose proof (initDB_outcomes w) as Hout.
  destruct (initDB w) as [[[]|e] w1]; cbn in *; [|discriminate].
  split; [reflexivity|]. split.
  - destruct Hout as [[Hc _] | [(Hc & _) | (Hc & _)]]; rewrite Hc;
      rewrite <- app_assoc; eexists; (split; [|reflexivity]); auto.
  - repeat split. intros s Hs. cbn.
    destruct (String.eqb_spec s ""); [contradiction|reflexivity].
Qed.

End Start.

Lemma start_always_listens_witness :
  console (snd (start (E := strict) (Some "8080") (startup [true])))
  = ["Error al inicializar la base de datos:";
     "Servidor corriendo en http://localhost:8080"]
  /\ PORT (Some "8080") = "8080".
Proof.
  split; [reflexivity|].
  apply (proj2 (proj2 (proj2 (proj2
           (start_always_listens (E := strict) None (startup []))))) "8080").
  discriminate.
Defined.

(** ** A falsy completion date *)

Section CompletionDate.
Context {E : engine}.

Lemma or_null_falsy (v : Js.value) :
  Js.truthy v = false -> Js.or v Js.Null = Js.Null.
Proof. unfold Js.or. now intros ->. Qed.

(** X14. A completion date that is falsy in the body (absent, [null],
    [''], [0] or [false]) is bound as [null] by create and by update:
    the statement carries [null], and when the request is answered 201
    or 200 the row created, or each row updated, has no completion
    date. *)
Theorem falsy_completion_date_is_stored_null (id : Z) (b : HitoBody.t)
  (w : world) :
  Js.truthy (HitoBody.fecha_finalizacion b) = false ->
  (issued (snd (post_api_hitos b w))
     = issued w
       ++ [INSERT_hitos (HitoBody.item b) (HitoBody.etapa_id b)
             (HitoBody.fecha_inicio b) (HitoBody.ubicacion b) Js.Null
             (HitoBody.comentarios b) (HitoBody.ilustracion b)]
   /\ issued (snd (put_api_hitos id b w))
      = issued w
        ++ [UPDATE_hitos (HitoBody.etapa_id b) (HitoBody.fecha_inicio b)
              (HitoBody.ubicacion b) Js.Null
              (HitoBody.comentarios b) (HitoBody.ilustracion b) id])
  /\ (forall i,
        fst (post_api_hitos b w)
          = Normal {| status := 201; body := Json_id_success i |} ->
        exists row,
          hitos_rows (db (snd (post_api_hitos b w)))
            = hitos_rows (db w) ++ [row]
          /\ Hitos.fecha_finalizacion row = None)
  /\ (fst (put_api_hitos id b w)
        = Normal {| status := 200; body := Json_success |} ->
      forall row,
        In row (hitos_rows (db (snd (put_api_hitos id b w)))) ->
        Hitos.id row = id ->
        Hitos.fecha_finalizacion row = None).
Proof.
  intros Hfalsy.
  destruct (post_api_hitos_step b w) as (Hc1 & Hc2 & Hc3).
  destruct (put_api_hitos_step id b w) as (Hu1 & Hu2 & Hu3).
  rewrite (or_null_falsy _ Hfalsy) in *.
  split; [split; assumption|]. split.
  - intros i H201. rewrite Hc2. rewrite Hc1 in H201.
    match type of H201 with context [round_trip ?s w] => set (s0 := s) in * end.
    destruct (round_trip_cases s0 w) as [[e Hrt] | (r & d & Hexec & Hrt)];
      rewrite Hrt in *; cbn in H201; [discriminate|].
    cbn. unfold s0 in Hexec. apply exec_INSERT_hitos_row in Hexec.
    destruct Hexec as (th & it & row & Hth & _ & Hrow & _ & ->).
    exists row. split; [unfold hitos_rows; cbn; now rewrite Hth|].
    apply hito_row_inr in Hrow.
    destruct Hrow as (_ & _ & _ & _ & _ & Hff & _).
    cbn in Hff. now injection Hff as <-.
  - intros H200 row Hrow Hid. rewrite Hu2 in Hrow. rewrite Hu1 in H200.
    match type of H200 with context [round_trip ?s w] => set (s0 := s) in * end.
    destruct (round_trip_cases s0 w) as [[e Hrt] | (r & d & Hexec & Hrt)];
      rewrite Hrt in *; cbn in H200; [discriminate|].
    cbn in Hrow. unfold s0 in Hexec. apply exec_UPDATE_rows in Hexec.
    destruct Hexec as [_ Hrows].
    destruct (Forall2_In_r _ _ _ row Hrows Hrow) as (old & _ & Hrel).
    destruct (Z.eqb_spec (Hitos.id old) id) as [_|Hne].
    + unfold assign in Hrel. apply hito_row_inr in Hrel.
      destruct Hrel as (_ & _ & _ & _ & _ & Hff & _).
      cbn in Hff. now injection Hff as <-.
    + subst row. contradiction.
Qed.

End CompletionDate.

Lemma falsy_completion_date_is_stored_null_witness :
  HitoBody.fecha_finalizacion bare_hito = Js.Str ""
  /\ Js.truthy (HitoBody.fecha_finalizacion bare_hito) = false
  /\ fst (post_api_hitos (E := strict) bare_hito with_hito_1)
     = Normal {| status := 201; body := Json_id_success 2 |}
  /\ exists row,
       hitos_rows (db (snd (post_api_hitos (E := strict) bare_hito
                              with_hito_1)))
       = hitos_rows (db with_hito_1) ++ [row]
       /\ Hitos.fecha_finalizacion row = None.
Proof.
  split; [reflexivity|]. split; [reflexivity|]. split; [reflexivity|].
  destruct (falsy_completion_date_is_stored_null (E := strict) 1 bare_hito
              with_hito_1 eq_refl) as (_ & Hcreate & _).
  exact (Hcreate 2 eq_refl).
Defined.

(** ** The name of the file, and the name it is stored under *)

Lemma lower_keeps_separators (c : ascii) :
  Ascii.eqb (lower c) "/" = Ascii.eqb c "/"
  /\ Ascii.eqb (lower c) "." = Ascii.eqb c ".".
Proof.
  destruct c as [[] [] [] [] [] [] [] []]; vm_compute; split; reflexivity.
Qed.

Lemma see_char_lower (c : ascii) (i : Z) (st : scan) :
  see_char (lower c) i st = see_char c i st.
Proof.
  unfold see_char. now rewrite (proj2 (lower_keeps_separators c)).
Qed.

Lemma extname_loop_lower (l : list ascii) (i : Z) (st : scan) :
  extname_loop (map lower l) i st = extname_loop l i st.
Proof.
  revert i st. induction l as [|c l IH]; intros i st; cbn [map extname_loop];
    [reflexivity|].
  rewrite (proj1 (lower_keeps_separators c)), see_char_lower, !IH.
  reflexivity.
Qed.

Lemma list_ascii_of_toLowerCase (s : string) :
  list_ascii_of_string (toLowerCase s) = map lower (list_ascii_of_string s).
Proof. induction s as [|c s IH]; cbn; [reflexivity|]. now rewrite IH. Qed.

Lemma length_toLowerCase (s : string) :
  String.length (toLowerCase s) = String.length s.
Proof. induction s as [|c s IH]; cbn; [reflexivity|]. now rewrite IH. Qed.

Lemma substring_toLowerCase (n m : nat) (s : string) :
  substring n m (toLowerCase s) = toLowerCase (substring n m s).
Proof.
  revert n m. induction s as [|c s IH]; intros [|n] [|m]; cbn;
    rewrite ?IH; reflexivity.
Qed.

(** The extension of the lower-cased name is the lower-cased
    extension. *)
Lemma extname_toLowerCase (s : string) :
  extname (toLowerCase s) = toLowerCase (extname s).
Proof.
  unfold extname.
  rewrite list_ascii_of_toLowerCase, <- map_rev, extname_loop_lower,
    length_toLowerCase.
  destruct (_ || _)%bool; [reflexivity|]. apply substring_toLowerCase.
Qed.

(** X15. The filter ignores letter case in the file name: two files of
    the same declared MIME type whose names differ only in the case of
    their letters get the same decision. *)
Theorem fileFilter_ignores_case_of_the_name (f g : File.t) :
  File.mimetype f = File.mimetype g ->
  toLowerCase (File.originalname f) = toLowerCase (File.originalname g) ->
  fileFilter f = fileFilter g.
Proof.
  intros Hmime Hname. unfold fileFilter.
  rewrite Hmime, <- !extname_toLowerCase, Hname. reflexivity.
Qed.

Lemma fileFilter_ignores_case_of_the_name_witness :
  fileFilter {| File.originalname := "Obra.JpEg"; File.mimetype := "image/jpeg";
                File.size := 10 |}
  = fileFilter {| File.originalname := "obra.jpeg";
                  File.mimetype := "image/jpeg"; File.size := 20 |}
  /\ fileFilter {| File.originalname := "obra.jpeg";
                   File.mimetype := "image/jpeg"; File.size := 20 |}
     = inr true.
Proof.
  split; [|reflexivity].
  apply fileFilter_ignores_case_of_the_name; reflexivity.
Defined.

(** ** No path separator in a stored name *)

Lemma includes_slash (s : string) :
  includes "/" s = false <->
  Forall (fun c => c <> "/"%char) (list_ascii_of_string s).
Proof.
  induction s as [|c s IH]; cbn [includes list_ascii_of_string].
  - cbn. split; [constructor|reflexivity].
  - cbn [String.prefix]. destruct (ascii_dec "/" c) as [<-|Hne].
    + assert (Hp : String.prefix "" s = true) by now destruct s.
      rewrite Hp. cbn [orb]. split; [discriminate|].
      intros H. inversion H; congruence.
    + cbn [orb]. rewrite IH. split.
      * intros H. constructor; [congruence|exact H].
      * intros H. now inversion H.
Qed.

Lemma list_ascii_of_append (a b : string) :
  list_ascii_of_string (a ++ b)
  = list_ascii_of_string a ++ list_ascii_of_string b.
Proof. induction a as [|c a IH]; cbn; [reflexivity|]. now rewrite IH. Qed.

Lemma string_of_uint_digits (d : Decimal.uint) :
  Forall (fun c => c <> "/"%char)
         (list_ascii_of_string (NilEmpty.string_of_uint d)).
Proof.
  induction d; cbn; constructor; try exact IHd; discriminate.
Qed.

Lemma decimal_slashless (n : Z) :
  Forall (fun c => c <> "/"%char) (list_ascii_of_string (decimal n)).
Proof.
  unfold decimal, NilZero.string_of_int, NilZero.string_of_uint.
  destruct (Z.to_int n) as [d|d].
  - destruct d; try apply string_of_uint_digits.
    cbn. constructor; [discriminate|constructor].
  - cbn [list_ascii_of_string]. constructor; [discriminate|].
    destruct d; try apply string_of_uint_digits.
    cbn. constructor; [discriminate|constructor].
Qed.

Lemma see_char_fields (c : ascii) (i : Z) (st : scan) :
  end_ (see_char c i st) = (if end_ st =? -1 then i + 1 else end_ st)
  /\ matchedSlash (see_char c i st)
     = (if end_ st =? -1 then false else matchedSlash st)
  /\ (startDot (see_char c i st) = startDot st
      \/ startDot (see_char c i st) = i).
Proof.
  unfold see_char.
  destruct (end_ st =? -1); cbn;
    destruct (Ascii.eqb c "."); cbn;
    destruct (startDot st =? -1); cbn;
    try destruct (preDotState st =? 1); cbn; auto.
Qed.

(** The characters that the scan leaves between [startDot] and [end]
    hold no separator. *)
Lemma extname_loop_slashless (cs : list ascii) (pre : list ascii) :
  forall (suf : list ascii) (st : scan),
    cs = pre ++ suf ->
    (end_ st = -1 -> startDot st = -1 /\ matchedSlash st = true) ->
    (end_ st <> -1 ->
     matchedSlash st = false
     /\ Z.of_nat (List.length pre) < end_ st
     /\ forall j, Z.of_nat (List.length pre) <= j < end_ st ->
                  nth_error cs (Z.to_nat j) <> Some "/"%char) ->
    (startDot st <> -1 ->
     Z.of_nat (List.length pre) <= startDot st < end_ st) ->
    let st' :=
      extname_loop (rev pre) (Z.of_nat (List.length pre) - 1) st in
    startDot st' = -1 \/ end_ st' = -1
    \/ (0 <= startDot st' < end_ st'
        /\ forall j, startDot st' <= j < end_ st' ->
                     nth_error cs (Z.to_nat j) <> Some "/"%char).
Proof.
  induction pre as [|c pre IH] using rev_ind; intros suf st Hcs H0 H1 H2.
  - cbn. destruct (Z.eq_dec (startDot st) (-1)) as [|Hs]; [now left|].
    destruct (Z.eq_dec (end_ st) (-1)) as [|He]; [now right; left|].
    right. right. specialize (H2 Hs). destruct (H1 He) as (_ & _ & Hno).
    cbn in *. split; [lia|]. intros j Hj. apply Hno. lia.
  - rewrite rev_app_distr. cbn [rev app extname_loop].
    rewrite length_app in *. cbn [List.length] in *.
    assert (Hc : nth_error cs (List.length pre) = Some c).
    { rewrite Hcs, <- app_assoc, nth_error_app2 by lia.
      now rewrite Nat.sub_diag. }
    replace (Z.of_nat (List.length pre + 1) - 1)
      with (Z.of_nat (List.length pre)) by lia.
    destruct (Ascii.eqb_spec c "/") as [->|Hne].
    + destruct (matchedSlash st) eqn:Hm; cbn [negb].
      * (* trailing separators: nothing seen yet *)
        assert (He : end_ st = -1).
        { destruct (Z.eq_dec (end_ st) (-1)) as [|He]; [assumption|].
          destruct (H1 He) as (Hf & _). congruence. }
        apply (IH ("/"%char :: suf) st).
        -- now rewrite Hcs, <- app_assoc.
        -- intros _. split; [now apply H0|exact Hm].
        -- intros Hx. contradiction.
        -- intros Hx. destruct (H0 He) as [Hs _]. contradiction.
      * (* the separator before the last component: the scan stops *)
        cbn. destruct (Z.eq_dec (startDot st) (-1)) as [|Hs]; [now left|].
        destruct (Z.eq_dec (end_ st) (-1)) as [|He]; [now right; left|].
        right. right. specialize (H2 Hs). destruct (H1 He) as (_ & _ & Hno).
        split; [lia|]. intros j Hj. apply Hno. lia.
    + destruct (see_char_fields c (Z.of_nat (List.length pre)) st)
        as (Hend & Hmatched & Hdot).
      apply (IH (c :: suf) (see_char c (Z.of_nat (List.length pre)) st)).
      * now rewrite Hcs, <- app_assoc.
      * rewrite Hend. destruct (Z.eqb_spec (end_ st) (-1)); intros Hx; lia.
      * intros _. rewrite Hend, Hmatched.
        destruct (Z.eqb_spec (end_ st) (-1)) as [He|He].
        -- split; [reflexivity|]. split; [lia|].
           intros j Hj. replace (Z.to_nat j) with (List.length pre) by lia.
           rewrite Hc. congruence.
        -- destruct (H1 He) as (Hf & Hlt & Hno).
           split; [exact Hf|]. split; [lia|].
           intros j Hj.
           destruct (Z.eq_dec j (Z.of_nat (List.length pre))) as [->|Hj'].
           ++ rewrite Nat2Z.id, Hc. congruence.
           ++ apply Hno. lia.
      * intros Hs. rewrite Hend.
        destruct Hdot as [Hsame|Hnew].
        -- rewrite Hsame in *. specialize (H2 Hs).
           destruct (Z.eqb_spec (end_ st) (-1)) as [He|He]; [|lia].
           destruct (H0 He) as [Hs' _]. contradiction.
        -- rewrite Hnew.
           destruct (Z.eqb_spec (end_ st) (-1)) as [He|He]; [lia|].
           destruct (H1 He) as (_ & Hlt & _). lia.
Qed.

Lemma substring_chars (s : string) :
  forall (n m : nat) (c : ascii),
    In c (list_ascii_of_string (substring n m s)) ->
    exists j, (n <= j < n + m)%nat
              /\ nth_error (list_ascii_of_string s) j = Some c.
Proof.
  induction s as [|a s IH]; intros n m c; [destruct n, m; intros []|].
  destruct n as [|n]; destruct m as [|m]; cbn [substring list_ascii_of_string].
  - intros [].
  - intros [<-|Hc].
    + exists 0%nat. split; [lia|reflexivity].
    + destruct (IH 0%nat m c Hc) as (j & Hj & Hnth).
      exists (S j). split; [lia|exact Hnth].
  - intros Hc. destruct (IH n 0%nat c Hc) as (j & Hj & _). lia.
  - intros Hc. destruct (IH n (S m) c Hc) as (j & Hj & Hnth).
    exists (S j). split; [lia|exact Hnth].
Qed.

Lemma extname_slashless (path : string) :
  Forall (fun c => c <> "/"%char) (list_ascii_of_string (extname path)).
Proof.
  unfold extname.
  set (cs := list_ascii_of_string path).
  assert (Hlen : String.length path = List.length cs).
  { unfold cs. clear. induction path as [|a s IH]; cbn; congruence. }
  rewrite Hlen.
  pose proof (extname_loop_slashless cs cs []
                {| startDot := -1; startPart := 0; end_ := -1;
                   matchedSlash := true; preDotState := 0 |}) as Hscan.
  cbn [startDot end_ matchedSlash] in Hscan.
  specialize (Hscan (eq_sym (app_nil_r cs)) (fun _ => conj eq_refl eq_refl)).
  assert (Hscan' := Hscan (fun Hx => False_ind _ (Hx eq_refl))
                          (fun Hx => False_ind _ (Hx eq_refl))).
  clear Hscan. cbv zeta in Hscan'.
  destruct Hscan' as [Hs | [He | (Hrange & Hno)]].
  - rewrite Hs. cbn. constructor.
  - rewrite He, orb_true_r. cbn. constructor.
  - destruct (_ || _)%bool; [constructor|].
    apply Forall_forall. intros c Hc Heq. subst c.
    apply substring_chars in Hc. destruct Hc as (j & Hj & Hnth).
    apply (Hno (Z.of_nat j)); [lia|]. now rewrite Nat2Z.id.
Qed.

(** X16. The name a file is stored under holds no [/], whatever the
    name the client gave it: an upload is written in [uploads] itself,
    and its url has the one segment after [/uploads/]. *)
Theorem stored_name_has_no_separator (now : Z) (file : File.t) :
  includes "/" (storage_filename now file) = false.
Proof.
  apply includes_slash. unfold storage_filename.
  rewrite list_ascii_of_append. apply Forall_app. split.
  - apply decimal_slashless.
  - apply extname_slashless.
Qed.

(** ** An update keeps the milestones of the listing *)



Section UpdateKeepsListing.
Context {E : engine}.




End UpdateKeepsListing.

